(** * The movie-dataset cleaning pipeline of EDA.py and the loader of App.py

    A shallow embedding of the pandas calls the two scripts make, and the
    properties of the cleaning pipeline proved against it.

    A [DataFrame] is an ordered list of column names and a list of rows; a
    row maps column names to cells.  The row index of pandas is the position
    in the list, so [reset_index(drop=True)] is the identity.  Floating-point
    cells are finite and exact rationals; [NaN], [None] and [NaT] are the
    one missing marker [NA].  The dtype of a column is not tracked: a cell
    is what it holds.  Printing to the console and plotting are not
    modelled.

    The frames of the model are those whose cells are missing, text or a
    finite number.  Infinite floats, the boolean columns [read_csv] makes of
    [True]/[False] entries, and the rounding and overflow of float64
    arithmetic are outside it. *)

From Stdlib Require Import QArith Qround Lqa Ascii String.
From stdpp Require Import gmap strings list fin_maps pretty.

Local Open Scope string_scope.
Local Open Scope Z_scope.
Local Open Scope nat_scope.

(** ** Cells *)

Inductive value :=
  | NA
  | Str (s : string)
  | Num (q : Q).

Definition isna (v : value) : bool :=
  match v with NA => true | _ => false end.

Definition is_text (v : value) : bool :=
  match v with Str _ => true | _ => false end.

(** A cell of a numeric column: a number or missing. *)
Definition is_number (v : value) : Prop := v = NA \/ exists q, v = Num q.

(** Equality of two cells as [DataFrame.duplicated] sees it: numbers by
    numeric value, strings by content, a missing cell only equal to a
    missing cell. *)
Definition value_eqb (a b : value) : bool :=
  match a, b with
  | NA, NA => true
  | Str s, Str t => bool_decide (s = t)
  | Num p, Num q => Qeq_bool p q
  | _, _ => false
  end.

(** ** Exceptions *)

Inductive exn :=
  | KeyError (key : string)
  | ValueError (msg : string)
  | AttributeError (msg : string).

Inductive result (A : Type) :=
  | Ok (a : A)
  | Raise (e : exn).
Arguments Ok {A} a.
Arguments Raise {A} e.

Global Instance result_ret : MRet result := fun _ a => Ok a.
Global Instance result_bind : MBind result := fun _ _ k m =>
  match m with
  | Ok a => k a
  | Raise e => Raise e
  end.

(** ** Conversions of the library

    What pandas does to one string, or to one number it has to print, is
    a parameter of the model: the pipeline is verified for every such
    parser and printer. *)

Record Scalars := {
  (** [pd.to_datetime(s, errors='coerce')] followed by [.dt.year], for one
      text cell of the column at hand (pandas settles on one date format
      for the column); [None] is [NaT]. *)
  parse_year : string -> option Z;
  (** What [pd.to_datetime(col, errors='coerce')] and [.dt.year] raise on
      a column, if anything.  [errors='coerce'] covers the cells one by
      one; a column whose text cells carry different UTC offsets is not a
      matter of one cell: pandas 3 raises [ValueError] in [to_datetime],
      pandas 2 hands back an object column on which [.dt] raises
      [AttributeError]. *)
  to_datetime_error : list value -> option exn;
  (** [pd.to_numeric(s, errors='coerce')] when it reads a finite number;
      [None] is [NaN]. *)
  parse_float : string -> option Q;
  (** [str(x)] of a number, as [astype(str)] applies it. *)
  repr_float : Q -> string
}.

(** ** Dates

    [pd.to_datetime] reads a number as nanoseconds since 1970-01-01; a value
    that does not fit a 64-bit count of nanoseconds is coerced to [NaT]. *)

Definition ns_per_day : Z := 86400000000000.
Definition int64_min : Z := - 2 ^ 63.
Definition int64_max : Z := 2 ^ 63 - 1.

(** The proleptic Gregorian year of a day count relative to 1970-01-01. *)
Definition year_of_days (days : Z) : Z :=
  let z := (days + 719468)%Z in
  let era := (z / 146097)%Z in
  let doe := (z - era * 146097)%Z in
  let yoe := ((doe - doe / 1460 + doe / 36524 - doe / 146096) / 365)%Z in
  let doy := (doe - (365 * yoe + yoe / 4 - yoe / 100))%Z in
  let mp := ((5 * doy + 2) / 153)%Z in
  let m := (if (mp <? 10)%Z then mp + 3 else mp - 9)%Z in
  (yoe + era * 400 + (if (m <=? 2)%Z then 1 else 0))%Z.

Definition Qtrunc (q : Q) : Z := (Qnum q ÷ Zpos (Qden q))%Z.

Definition year_of_epoch_ns (q : Q) : option Z :=
  let n := Qtrunc q in
  if ((int64_min <? n) && (n <=? int64_max))%Z
  then Some (year_of_days (n / ns_per_day)%Z)
  else None.

(** ** Strings *)

Definition cons_first (c : ascii) (toks : list string) : list string :=
  match toks with
  | t :: ts => String c t :: ts
  | [] => [String c EmptyString]
  end.

(** [s.split(sep)] for a non-empty separator: the pieces between the
    leftmost non-overlapping occurrences of [sep].  [skip] counts the
    characters of a matched separator still to be passed over. *)
Fixpoint split_from (sep : string) (skip : nat) (s : string) : list string :=
  match s with
  | EmptyString => [EmptyString]
  | String c s' =>
      match skip with
      | S k => split_from sep k s'
      | O =>
          if String.prefix sep s
          then EmptyString :: split_from sep (String.length sep - 1) s'
          else cons_first c (split_from sep 0 s')
      end
  end.

Definition str_split (sep s : string) : list string := split_from sep 0 s.

(** [sep.join(toks)] *)
Fixpoint str_join (sep : string) (toks : list string) : string :=
  match toks with
  | [] => EmptyString
  | [t] => t
  | t :: ts => t +:+ sep +:+ str_join sep ts
  end.

(** First occurrences, in order: [Series.unique()], and the size of
    [set(...)], under a given equality. *)
Fixpoint keep_first {A} (eqb : A -> A -> bool) (seen l : list A) : list A :=
  match l with
  | [] => []
  | x :: l' =>
      if existsb (eqb x) seen
      then keep_first eqb seen l'
      else x :: keep_first eqb (x :: seen) l'
  end.

Definition unique {A} (eqb : A -> A -> bool) (l : list A) : list A :=
  keep_first eqb [] l.

(** ** Data frames *)

Record DataFrame := {
  columns : list string;
  rows : list (gmap string value)
}.

(** The cell of a row under a column; a row that lacks the column reads as
    missing there. *)
Definition cell (r : gmap string value) (c : string) : value :=
  default NA (r !! c).

(** [df[c] = f(df[c])] for an element-wise [f]; [df[c]] raises [KeyError]
    when the frame has no column [c]. *)
Definition map_col (f : value -> value) (c : string) (df : DataFrame)
  : result DataFrame :=
  if decide (c ∈ columns df)
  then Ok {| columns := columns df;
             rows := (fun r => <[c := f (cell r c)]> r) <$> rows df |}
  else Raise (KeyError c).

(** [df[c] = s] where the series [s] is given row by row; a new column goes
    last. *)
Definition assign_col (c : string) (f : gmap string value -> value)
    (df : DataFrame) : DataFrame :=
  {| columns := if decide (c ∈ columns df) then columns df
                else columns df ++ [c];
     rows := (fun r => <[c := f r]> r) <$> rows df |}.

(** [df.drop(cs, axis=1, errors='ignore')] *)
Definition drop_columns (cs : list string) (df : DataFrame) : DataFrame :=
  {| columns := List.filter (fun c => negb (bool_decide (c ∈ cs))) (columns df);
     rows := (fun r => foldr delete r cs) <$> rows df |}.

(** [df.dropna()]: a row stays when none of its cells is missing. *)
Definition row_complete (cs : list string) (r : gmap string value) : bool :=
  forallb (fun c => negb (isna (cell r c))) cs.

Definition dropna (df : DataFrame) : DataFrame :=
  {| columns := columns df;
     rows := List.filter (row_complete (columns df)) (rows df) |}.

(** [df.drop_duplicates()]: of rows equal on every column the first stays. *)
Definition row_eqb (cs : list string) (r1 r2 : gmap string value) : bool :=
  forallb (fun c => value_eqb (cell r1 c) (cell r2 c)) cs.

Definition drop_duplicates (df : DataFrame) : DataFrame :=
  {| columns := columns df;
     rows := unique (row_eqb (columns df)) (rows df) |}.

(** ** Series of numbers *)

(** A column all of whose cells are numbers or missing, and one whose
    numbers all equal [x]. *)
Definition numeric_column (df : DataFrame) (c : string) : Prop :=
  forall r : gmap string value,
    r ∈ rows df -> exists v, r !! c = Some v /\ is_number v.

Definition constant_column (df : DataFrame) (c : string) (x : Q) : Prop :=
  forall r : gmap string value,
    r ∈ rows df -> cell r c = NA \/ exists q, cell r c = Num q /\ (q == x)%Q.

(** The two invariants of a cleaned frame. *)

Definition no_missing (df : DataFrame) : Prop :=
  forall (r : gmap string value) c,
    r ∈ rows df -> c ∈ columns df -> exists v, r !! c = Some v /\ v <> NA.

Definition no_duplicates (df : DataFrame) : Prop :=
  forall i j (r1 r2 : gmap string value),
    i <> j -> rows df !! i = Some r1 -> rows df !! j = Some r2 ->
    exists c, c ∈ columns df /\ value_eqb (cell r1 c) (cell r2 c) = false.

(** A float that may be [NaN] is an [option Q]. *)
Definition float_eqb (a b : option Q) : bool :=
  match a, b with
  | Some p, Some q => Qeq_bool p q
  | None, None => true
  | _, _ => false
  end.

Definition Qltb (p q : Q) : bool := negb (Qle_bool q p).

(** [a < b] on floats: false as soon as one side is [NaN]. *)
Definition float_ltb (a b : option Q) : bool :=
  match a, b with
  | Some p, Some q => Qltb p q
  | _, _ => false
  end.

(** [sorted(l)]: a stable ascending sort by [<]. *)
Fixpoint insert_by {A} (ltb : A -> A -> bool) (x : A) (l : list A) : list A :=
  match l with
  | [] => [x]
  | y :: l' => if ltb y x then y :: insert_by ltb x l' else x :: l
  end.

Definition sorted {A} (ltb : A -> A -> bool) (l : list A) : list A :=
  foldr (insert_by ltb) [] l.

(** [s.quantile(q)] with linear interpolation, on the sorted values of
    [s]: position [q * (n - 1)], interpolated between its two neighbours.
    The quantile of an empty series is [NaN]. *)
Definition quantile_sorted (xs : list Q) (q : Q) : option Q :=
  match xs with
  | [] => None
  | x0 :: _ =>
      let n := length xs in
      let pos := (q * inject_Z (Z.of_nat (n - 1)))%Q in
      let lo := Z.to_nat (Qfloor pos) in
      let hi := Nat.min (lo + 1) (n - 1) in
      let frac := (pos - inject_Z (Qfloor pos))%Q in
      let a := nth lo xs x0 in
      let b := nth hi xs x0 in
      Some (Qred (a + (b - a) * frac))
  end.

Definition quantile (xs : list Q) (qs : list Q) : list (option Q) :=
  map (quantile_sorted (sorted Qltb xs)) qs.

(** ** [pd.cut(x, bins, labels, include_lowest=True, duplicates='drop')]
    with the default [right=True] *)

(** [bins.searchsorted(x, side='left')] on increasing bins: how many edges
    lie strictly below [x]. *)
Definition searchsorted_left (bins : list Q) (x : Q) : nat :=
  length (List.filter (fun b => Qltb b x) bins).

(** The category of one cell: bin [i] is [(bins[i-1], bins[i]]], the first
    one closed on the left as well; a cell that is missing or falls in no
    bin has no category. *)
Definition cut_value (bins : list Q) (labels : list string) (v : value)
  : value :=
  match v with
  | Num x =>
      let ids :=
        if match bins with b0 :: _ => Qeq_bool x b0 | [] => false end
        then 1 else searchsorted_left bins x in
      if (ids =? 0) || (ids =? length bins) then NA
      else match labels !! (ids - 1) with
           | Some l => Str l
           | None => NA
           end
  | _ => NA
  end.

(** [bins.is_monotonic_increasing] *)
Fixpoint increasing (bins : list Q) : bool :=
  match bins with
  | a :: (b :: _) as l => Qle_bool a b && increasing l
  | _ => true
  end.

(** Each edge strictly below the next; no two values equal. *)
Fixpoint strictly_increasing (l : list Q) : Prop :=
  match l with
  | a :: (b :: _) as t => (a < b)%Q /\ strictly_increasing t
  | _ => True
  end.

Fixpoint all_differ (l : list Q) : Prop :=
  match l with
  | [] => True
  | x :: t => (forall y, y ∈ t -> ~ (x == y)%Q) /\ all_differ t
  end.

(** Each value at most every later one. *)
Fixpoint ascending (l : list Q) : Prop :=
  match l with
  | [] => True
  | x :: t => (forall y, y ∈ t -> (x <= y)%Q) /\ ascending t
  end.

(** The checks of [pd.cut] on explicit bins, in its order: monotonic bins,
    duplicate edges dropped, unique labels, one label per bin. *)
Definition cut (bins : list Q) (labels : list string)
  : result (value -> value) :=
  if negb (increasing bins)
  then Raise (ValueError "bins must increase monotonically.")
  else
    let ubins := unique Qeq_bool bins in
    let bins' :=
      if (length ubins <? length bins) && negb (length bins =? 2)
      then ubins else bins in
    if negb (length (unique String.eqb labels) =? length labels)
    then Raise (ValueError
      "labels must be unique if ordered=True; pass ordered=False for duplicate labels")
    else if negb (length labels =? length bins' - 1)
    then Raise (ValueError
      "Bin labels must be one fewer than the number of bin edges")
    else Ok (cut_value bins' labels).

(** The values of a column, top to bottom. *)
Definition series (df : DataFrame) (c : string) : list value :=
  (fun r => cell r c) <$> rows df.

Definition as_float (v : value) : option Q :=
  match v with Num q => Some q | _ => None end.

(** [all_floats l] is [Some] of the list when none of its floats is [NaN]. *)
Fixpoint all_floats (l : list (option Q)) : option (list Q) :=
  match l with
  | [] => Some []
  | Some q :: l' => option_map (cons q) (all_floats l')
  | None :: _ => None
  end.

Definition quantile_points : list Q := [0; 1 # 4; 1 # 2; 3 # 4; 1]%Q.

Section Pipeline.

Context (lib : Scalars).

(** [pd.to_numeric(x, errors='coerce')] on one cell *)
Definition to_numeric (v : value) : value :=
  match v with
  | NA => NA
  | Num q => Num q
  | Str s => match parse_float lib s with Some q => Num q | None => NA end
  end.

(** [pd.to_datetime(x, errors='coerce')] then [.dt.year] on one cell *)
Definition release_year (v : value) : value :=
  match v with
  | NA => NA
  | Str s =>
      match parse_year lib s with Some y => Num (inject_Z y) | None => NA end
  | Num q =>
      match year_of_epoch_ns q with Some y => Num (inject_Z y) | None => NA end
  end.

(** [astype(str)] on one cell.  A missing cell becomes the text "nan" (the
    object strings of pandas 2; the string dtype of pandas 3 leaves it
    missing).  The cleaning script only converts cells that [dropna] has
    left, none of them missing. *)
Definition astype_str (v : value) : string :=
  match v with
  | NA => "nan"
  | Str s => s
  | Num q => repr_float lib q
  end.

(** *** EDA.py, [categorize_col] *)

(** [sorted(valid.quantile([0, 0.25, 0.5, 0.75, 1.0]).unique())] *)

Definition quantile_edges (df : DataFrame) (col : string)
  : list (option Q) :=
  let valid := omap as_float (series df col) in
  sorted float_ltb (unique float_eqb (quantile valid quantile_points)).

Definition categorize_col (df : DataFrame) (col : string)
    (labels : list string) : result DataFrame :=
  df ← map_col to_numeric col df;
  let edges := quantile_edges df col in
  if length (unique float_eqb edges) <? 2
  then Ok df
  else
    match all_floats edges with
    | None =>
        (* not taken on finite numbers: two distinct edges come from a
           non-empty series, whose quantiles are then numbers
           ([quantile_edges_bins]) *)
        Raise (ValueError "bins must increase monotonically.")
    | Some bins =>
        category ← cut bins (take (length edges - 1) labels);
        Ok (assign_col (col +:+ "_Category")
              (fun r => category (cell r col)) df)
    end.

(** *** EDA.py, the cleaning steps in the order of the script *)

Definition cols : list string :=
  ["Overview"; "Original_Language"; "Poster_Url"].

Definition labels : list string :=
  ["not_popular"; "below_avg"; "average"; "popular"].

(** What [pd.to_datetime] and [.dt.year] raise on a column.  A column
    without text is a column of floats, read as counts of nanoseconds: no
    time zone is met there. *)
Definition to_datetime_raises (col : list value) : option exn :=
  if existsb is_text col then to_datetime_error lib col else None.

(** [df[c] = pd.to_datetime(df[c], errors='coerce')] followed by
    [df[c] = df[c].dt.year]: [KeyError] without the column, the exception
    of the library on the column as a whole, the year or [NaT] cell by
    cell otherwise. *)
Definition to_datetime_year (c : string) (df : DataFrame)
  : result DataFrame :=
  dated ← map_col release_year c df;
  match to_datetime_raises (series df c) with
  | Some e => Raise e
  | None => Ok dated
  end.

Definition date_normalization (df : DataFrame) : result DataFrame :=
  to_datetime_year "Release_Date" df.

Definition column_pruning (df : DataFrame) : DataFrame :=
  drop_columns cols df.

Definition numeric_coercion (df : DataFrame) : result DataFrame :=
  df ← map_col to_numeric "Vote_Average" df;
  df ← map_col to_numeric "Vote_Count" df;
  map_col to_numeric "Popularity" df.

Definition row_elimination (df : DataFrame) : DataFrame :=
  drop_duplicates (dropna df).

(** [df.explode('Genre')] on one row whose cell holds the list [toks]: one
    row per element, in order, and one row with a missing cell for the empty
    list. *)
Definition explode_cell (toks : list string) : list value :=
  match toks with
  | [] => [NA]
  | _ => Str <$> toks
  end.

(** [astype(str).str.split(', ')] followed by the explosion, for one row *)
Definition explode_row (r : gmap string value) : list (gmap string value) :=
  (fun v => <["Genre" := v]> r)
    <$> explode_cell (str_split ", " (astype_str (cell r "Genre"))).

(** The guarded block [if 'Genre' in df.columns: ...]; the closing
    [astype('category')] changes the dtype, not the cells. *)
Definition genre_explosion (df : DataFrame) : DataFrame :=
  if decide ("Genre" ∈ columns df)
  then {| columns := columns df; rows := rows df ≫= explode_row |}
  else df.

(** The frame as it stands before null and duplicate handling. *)
Definition prepare (df : DataFrame) : result DataFrame :=
  df ← date_normalization df;
  df ← numeric_coercion (column_pruning df);
  categorize_col df "Vote_Average" labels.

(** EDA.py from the frame read from the file to the frame it saves. *)
Definition eda_pipeline (df : DataFrame) : result DataFrame :=
  df ← prepare df;
  Ok (genre_explosion (row_elimination df)).


(** *** App.py, [load_data] *)

Definition load_data (df : DataFrame) : result DataFrame :=
  df ← date_normalization df;
  df ← map_col to_numeric "Vote_Count" df;
  df ← map_col to_numeric "Popularity" df;
  Ok (genre_explosion df).

(** What numeric coercion does to one row. *)
Definition coerce_row (r : gmap string value) : gmap string value :=
  let r := <["Vote_Average" := to_numeric (cell r "Vote_Average")]> r in
  let r := <["Vote_Count" := to_numeric (cell r "Vote_Count")]> r in
  <["Popularity" := to_numeric (cell r "Popularity")]> r.

(** What [load_data] does to one row before the explosion. *)
Definition load_row (r : gmap string value) : gmap string value :=
  let r := <["Release_Date" := release_year (cell r "Release_Date")]> r in
  let r := <["Vote_Count" := to_numeric (cell r "Vote_Count")]> r in
  <["Popularity" := to_numeric (cell r "Popularity")]> r.

(** [r'] is one of the rows [load_data] makes of the row [r]: the year
    and the two numbers read from [r], every column other than these and
    Genre as in [r]. *)
Definition loaded_from (r r' : gmap string value) : Prop :=
  cell r' "Release_Date" = release_year (cell r "Release_Date") /\
  cell r' "Vote_Count" = to_numeric (cell r "Vote_Count") /\
  cell r' "Popularity" = to_numeric (cell r "Popularity") /\
  forall c, c ∉ ["Genre"; "Release_Date"; "Vote_Count"; "Popularity"] ->
    r' !! c = r !! c.

End Pipeline.

(** ** A concrete reading of scalars

    Plain decimal literals, ISO [YYYY-MM-DD] dates and ISO timestamps with
    a UTC offset, [YYYY-MM-DDTHH:MM:SS+HH:MM]: a fragment of what the
    parsers of pandas accept, on which the examples below run, each date
    column written in one of the two formats.  Strings outside the fragment
    read as unparsable. *)

Definition digit (c : ascii) : option Z :=
  let n := Z.of_N (N_of_ascii c) in
  if ((48 <=? n) && (n <=? 57))%Z then Some (n - 48)%Z else None.

(** Reads a run of digits: its value after [acc], its length, the rest. *)
Fixpoint read_digits (acc : Z) (count : nat) (s : string)
  : Z * nat * string :=
  match s with
  | EmptyString => (acc, count, s)
  | String c s' =>
      match digit c with
      | Some d => read_digits (10 * acc + d)%Z (S count) s'
      | None => (acc, count, s)
      end
  end.

Definition parse_unsigned (s : string) : option Q :=
  let '(i, ni, rest) := read_digits 0%Z 0 s in
  match rest with
  | EmptyString => if ni =? 0 then None else Some (inject_Z i)
  | String "." rest' =>
      let '(f, nf, rest'') := read_digits 0%Z 0 rest' in
      match rest'' with
      | EmptyString =>
          if ni + nf =? 0 then None
          else Some (Qred (Qmake (i * 10 ^ Z.of_nat nf + f)
                                 (Z.to_pos (10 ^ Z.of_nat nf))))
      | _ => None
      end
  | _ => None
  end.

Definition parse_decimal (s : string) : option Q :=
  match s with
  | String "-" s' => Qopp <$> parse_unsigned s'
  | String "+" s' => parse_unsigned s'
  | _ => parse_unsigned s
  end.

Definition is_leap (y : Z) : bool :=
  ((y mod 4 =? 0) && (negb (y mod 100 =? 0) || (y mod 400 =? 0)))%Z.

Definition days_in_month (y m : Z) : Z :=
  if (m =? 2)%Z then (if is_leap y then 29 else 28)%Z
  else if ((m =? 4) || (m =? 6) || (m =? 9) || (m =? 11))%Z then 30%Z
  else 31%Z.

Definition number_of (ds : list ascii) : option Z :=
  foldl (fun acc c => a ← acc; d ← digit c; Some (10 * a + d)%Z) (Some 0%Z) ds.

(** The year of a [YYYY-MM-DD] date that a nanosecond timestamp can hold
    whole (1678 to 2261). *)
Definition parse_iso_year (s : string) : option Z :=
  match s with
  | String y1 (String y2 (String y3 (String y4 (String "-"
      (String m1 (String m2 (String "-"
        (String d1 (String d2 EmptyString))))))))) =>
      y ← number_of [y1; y2; y3; y4];
      m ← number_of [m1; m2];
      d ← number_of [d1; d2];
      if ((1678 <=? y) && (y <=? 2261) && (1 <=? m) && (m <=? 12)
          && (1 <=? d) && (d <=? days_in_month y m))%Z
      then Some y else None
  | _ => None
  end.

(** The decimal expansion of a fraction [r / den] in [[0, 1)], at most
    [fuel] digits. *)
Fixpoint frac_digits (fuel : nat) (r den : Z) : string :=
  match fuel with
  | O => EmptyString
  | S k =>
      if (r =? 0)%Z then EmptyString
      else pretty ((10 * r) / den)%Z +:+ frac_digits k ((10 * r) mod den)%Z den
  end.

Definition repr_decimal (q : Q) : string :=
  let den := Zpos (Qden q) in
  let n := Z.abs (Qnum q) in
  let frac := frac_digits 17 (n mod den)%Z den in
  (if (Qnum q <? 0)%Z then "-" else "")
    +:+ pretty (n / den)%Z +:+ "."
    +:+ (if String.eqb frac "" then "0" else frac).

(** [HH:MM:SS] *)
Definition parse_clock (s : string) : option unit :=
  match s with
  | String h1 (String h2 (String ":" (String m1 (String m2 (String ":"
      (String s1 (String s2 EmptyString))))))) =>
      h ← number_of [h1; h2];
      m ← number_of [m1; m2];
      sec ← number_of [s1; s2];
      if ((h <=? 23) && (m <=? 59) && (sec <=? 59))%Z
      then Some () else None
  | _ => None
  end.

(** [+HH:MM] or [-HH:MM], in minutes east of UTC *)
Definition parse_offset (s : string) : option Z :=
  match s with
  | String sign (String h1 (String h2 (String ":"
      (String m1 (String m2 EmptyString))))) =>
      h ← number_of [h1; h2];
      m ← number_of [m1; m2];
      if ((h <=? 23) && (m <=? 59))%Z
      then
        if Ascii.eqb sign "+" then Some (60 * h + m)%Z
        else if Ascii.eqb sign "-" then Some (- (60 * h + m))%Z
        else None
      else None
  | _ => None
  end.

(** The year, as written, and the offset of a timestamp
    [YYYY-MM-DDTHH:MM:SS+HH:MM]; a blank may stand for the [T]. *)
Definition parse_timestamp (s : string) : option (Z * Z) :=
  if String.length s =? 25
  then
    y ← parse_iso_year (substring 0 10 s);
    _ ← (if String.eqb (substring 10 1 s) "T"
            || String.eqb (substring 10 1 s) " "
         then Some () else None);
    _ ← parse_clock (substring 11 8 s);
    o ← parse_offset (substring 19 6 s);
    Some (y, o)
  else None.

Definition parse_date_year (s : string) : option Z :=
  match parse_iso_year s with
  | Some y => Some y
  | None => fst <$> parse_timestamp s
  end.

Definition utc_offset (v : value) : option Z :=
  match v with
  | Str s => snd <$> parse_timestamp s
  | _ => None
  end.

(** Two text cells of the column carry different UTC offsets: the
    [ValueError] of pandas 3. *)
Definition mixed_offsets (col : list value) : option exn :=
  match unique Z.eqb (omap utc_offset col) with
  | _ :: _ :: _ =>
      Some (ValueError
        "Mixed timezones detected. Pass utc=True in to_datetime or tz='UTC' in DatetimeIndex to convert to a common timezone.")
  | _ => None
  end.

Definition decimal_iso : Scalars :=
  {| parse_year := parse_date_year;
     to_datetime_error := mixed_offsets;
     parse_float := parse_decimal;
     repr_float := repr_decimal |}.

(** ** Sample frames

    Frames as [pd.read_csv] hands them over: a column whose every entry
    reads as a number holds numbers, any other column holds strings. *)

Definition row_of (l : list (string * value)) : gmap string value :=
  list_to_map l.

Definition raw_columns : list string :=
  ["Release_Date"; "Title"; "Overview"; "Popularity"; "Vote_Count";
   "Vote_Average"; "Original_Language"; "Genre"; "Poster_Url"].

Definition raw_row (date title : string) (pop count avg : value)
    (genre : string) : gmap string value :=
  row_of [("Release_Date", Str date); ("Title", Str title);
          ("Overview", Str "..."); ("Popularity", pop);
          ("Vote_Count", count); ("Vote_Average", avg);
          ("Original_Language", Str "en"); ("Genre", Str genre);
          ("Poster_Url", Str "...")].

Definition clean_columns : list string :=
  ["Release_Date"; "Title"; "Popularity"; "Vote_Count"; "Vote_Average";
   "Genre"; "Vote_Average_Category"].

Definition clean_row (year : Z) (title : string) (pop count avg : Q)
    (genre category : string) : gmap string value :=
  row_of [("Release_Date", Num (inject_Z year)); ("Title", Str title);
          ("Popularity", Num pop); ("Vote_Count", Num count);
          ("Vote_Average", Num avg); ("Genre", Str genre);
          ("Vote_Average_Category", Str category)].

Definition loaded_row (year : Z) (title : string) (pop count avg : Q)
    (genre : string) : gmap string value :=
  row_of [("Release_Date", Num (inject_Z year)); ("Title", Str title);
          ("Overview", Str "..."); ("Popularity", Num pop);
          ("Vote_Count", Num count); ("Vote_Average", Num avg);
          ("Original_Language", Str "en"); ("Genre", Str genre);
          ("Poster_Url", Str "...")].

(** The end-to-end scenario of the specification, and a second title. *)
Definition df_scenario : DataFrame :=
  {| columns := raw_columns;
     rows := [raw_row "2020-05-01" "X" (Num (251 # 5)) (Num 100)
                (Num (15 # 2)) "Drama, Romance";
              raw_row "2019-03-02" "Y" (Num 10) (Num 20) (Num 6) "Action"] |}.

(** The scenario frame as the script cleans it and as the dashboard
    loads it. *)
Definition cleaned_scenario : DataFrame :=
  {| columns := clean_columns;
     rows := [clean_row 2020 "X" (251 # 5) 100 (15 # 2) "Drama" "popular";
              clean_row 2020 "X" (251 # 5) 100 (15 # 2) "Romance" "popular";
              clean_row 2019 "Y" 10 20 6 "Action" "not_popular"] |}.

Definition loaded_scenario : DataFrame :=
  {| columns := raw_columns;
     rows := [loaded_row 2020 "X" (251 # 5) 100 (15 # 2) "Drama";
              loaded_row 2020 "X" (251 # 5) 100 (15 # 2) "Romance";
              loaded_row 2019 "Y" 10 20 6 "Action"] |}.

Definition row_action_comedy : gmap string value :=
  raw_row "2020-05-01" "X" (Num (251 # 5)) (Num 100) (Num (15 # 2))
    "Action, Comedy".

(** One title listed twice, under two genre lists that share a genre; the
    frame the script makes of it, and the frame a second run of the script
    makes of that. *)
Definition df_relisted : DataFrame :=
  {| columns := raw_columns;
     rows := [raw_row "2020-05-01" "X" (Num (251 # 5)) (Num 100)
                (Num (15 # 2)) "Action, Comedy";
              raw_row "2020-05-01" "X" (Num (251 # 5)) (Num 100)
                (Num (15 # 2)) "Action, Drama";
              raw_row "2019-03-02" "Y" (Num 10) (Num 20) (Num 6) "Drama"] |}.

Definition out_relisted : DataFrame :=
  {| columns := clean_columns;
     rows := [clean_row 2020 "X" (251 # 5) 100 (15 # 2) "Action" "below_avg";
              clean_row 2020 "X" (251 # 5) 100 (15 # 2) "Comedy" "below_avg";
              clean_row 2020 "X" (251 # 5) 100 (15 # 2) "Action" "below_avg";
              clean_row 2020 "X" (251 # 5) 100 (15 # 2) "Drama" "below_avg";
              clean_row 2019 "Y" 10 20 6 "Drama" "not_popular"] |}.

Definition out_relisted_again : DataFrame :=
  {| columns := clean_columns;
     rows := [clean_row 1970 "X" (251 # 5) 100 (15 # 2) "Action" "not_popular";
              clean_row 1970 "X" (251 # 5) 100 (15 # 2) "Comedy" "not_popular";
              clean_row 1970 "X" (251 # 5) 100 (15 # 2) "Drama" "not_popular";
              clean_row 1970 "Y" 10 20 6 "Drama" "not_popular"] |}.

(** A genre list that ends in the separator. *)
Definition df_trailing : DataFrame :=
  {| columns := raw_columns;
     rows := [raw_row "2020-05-01" "X" (Num (251 # 5)) (Num 100)
                (Num (15 # 2)) "Action, ";
              raw_row "2019-03-02" "Y" (Num 10) (Num 20) (Num 6) "Drama"] |}.

(** Cells that are neither dates nor numbers: the three numeric columns
    are read as text. *)
Definition df_malformed : DataFrame :=
  {| columns := raw_columns;
     rows := [raw_row "not a date" "X" (Str "high") (Str "many") (Str "6,5")
                "Drama";
              raw_row "2019-03-02" "Y" (Str "10") (Str "20") (Str "6.0")
                "Action"] |}.

(** A numeric column without variation, one cell missing. *)
Definition df_constant : DataFrame :=
  {| columns := ["v"];
     rows := [row_of [("v", Num 5)]; row_of [("v", NA)];
              row_of [("v", Num 5)]] |}.

(** A column holding 1 to 10, and its expected categories. *)
Definition one_to_ten : list Q := [1; 2; 3; 4; 5; 6; 7; 8; 9; 10]%Q.

Definition df_one_to_ten : DataFrame :=
  {| columns := ["v"];
     rows := (fun x => row_of [("v", Num x)]) <$> one_to_ten |}.

Definition df_one_to_ten_binned : DataFrame :=
  {| columns := ["v"; "v_Category"];
     rows := (fun '(x, l) => row_of [("v", Num x); ("v_Category", Str l)])
       <$> zip one_to_ten ["a"; "a"; "a"; "b"; "b"; "c"; "c"; "d"; "d"; "d"] |}.

(** ** What the steps before null handling leave alone *)

Definition genre_stable (df df' : DataFrame) : Prop :=
  ("Genre" ∈ columns df' <-> "Genre" ∈ columns df) /\
  exists f : gmap string value -> gmap string value,
    rows df' = f <$> rows df /\ forall r, f r !! "Genre" = r !! "Genre".

(** ** The rest of the two scripts *)

(** EDA.py, the loop after the drop: one line printed for each of [cols]
    that is not a column of the frame. *)
Definition column_report (df : DataFrame) : list string :=
  (fun c => " Column not found: " +:+ c)
    <$> List.filter (fun c => negb (bool_decide (c ∈ columns df))) cols.

(** The columns the script, and the loader of the dashboard, index by name,
    in the order in which they do. *)
Definition indexed_columns : list string :=
  ["Release_Date"; "Vote_Average"; "Vote_Count"; "Popularity"].

Definition loader_columns : list string :=
  ["Release_Date"; "Vote_Count"; "Popularity"].

Definition first_missing (cs : list string) (df : DataFrame) : option string :=
  List.find (fun c => negb (bool_decide (c ∈ columns df))) cs.

(** The columns the script assigns to or drops. *)
Definition written_columns : list string :=
  ["Release_Date"; "Overview"; "Original_Language"; "Poster_Url";
   "Vote_Average"; "Vote_Count"; "Popularity"; "Vote_Average_Category";
   "Genre"].

(** Each row of [df'] agrees with some row of [df] on every column that
    satisfies [keep]. *)
Definition rows_from (keep : string -> Prop) (df df' : DataFrame) : Prop :=
  forall r' : gmap string value, r' ∈ rows df' ->
    exists r : gmap string value,
      r ∈ rows df /\ forall c, keep c -> r' !! c = r !! c.

(** [df.empty]: no row or no column. *)
Definition df_empty (df : DataFrame) : bool :=
  (length (rows df) =? 0) || (length (columns df) =? 0).

(** [df.sample(n)]: [n] rows drawn without replacement; [draw n len]
    stands for the positions the random generator picks among [len].  A
    sample larger than the frame raises. *)
Definition sample (draw : nat -> nat -> list nat) (n : nat) (df : DataFrame)
  : result DataFrame :=
  if length (rows df) <? n
  then Raise (ValueError
    "Cannot take a larger sample than population when 'replace=False'")
  else Ok {| columns := columns df;
             rows := omap (fun i => rows df !! i)
                       (draw n (length (rows df))) |}.

(** EDA.py, the sample view: the five rows printed, or [None] when the
    message for an empty frame is printed instead. *)
Definition sample_view (draw : nat -> nat -> list nat) (df : DataFrame)
  : result (option DataFrame) :=
  if negb (df_empty df)
  then d ← sample draw 5 df; Ok (Some d)
  else Ok None.

(** [s.max()] and [s.min()] of a series of floats, [NaN] when it holds no
    number. *)
Definition series_max (xs : list Q) : option Q :=
  foldr (fun x acc =>
           match acc with
           | Some m => Some (if Qltb m x then x else m)
           | None => Some x
           end) None xs.

Definition series_min (xs : list Q) : option Q :=
  foldr (fun x acc =>
           match acc with
           | Some m => Some (if Qltb x m then x else m)
           | None => Some x
           end) None xs.

(** [df['Popularity'] == m] on one row *)
Definition popularity_is (m : option Q) (r : gmap string value) : bool :=
  match cell r "Popularity", m with
  | Num q, Some m => Qeq_bool q m
  | _, _ => false
  end.

(** [df[df['Popularity'] == df['Popularity'].max()]], and the same with
    [min()]: the rows shown as most and least popular by the script and by
    the dashboard. *)
Definition popularity_rows (pick : list Q -> option Q) (df : DataFrame)
  : result DataFrame :=
  if decide ("Popularity" ∈ columns df)
  then
    let m := pick (omap as_float (series df "Popularity")) in
    Ok {| columns := columns df;
          rows := List.filter (popularity_is m) (rows df) |}
  else Raise (KeyError "Popularity").

Definition most_popular : DataFrame -> result DataFrame :=
  popularity_rows series_max.

Definition least_popular : DataFrame -> result DataFrame :=
  popularity_rows series_min.

Section Views.

Context (lib : Scalars).

(** App.py, the release-date view: [Release_Date] is passed through
    [pd.to_datetime] once more, [Year] is its [.dt.year], the rows without
    a year are dropped; these are the years handed to the histogram. *)
Definition release_date_years (df : DataFrame) : result (list value) :=
  if decide ("Release_Date" ∈ columns df)
  then
    match to_datetime_raises lib (series df "Release_Date") with
    | Some e => Raise e
    | None =>
        Ok (List.filter (fun v => negb (isna v))
              (release_year lib <$> series df "Release_Date"))
    end
  else Raise (KeyError "Release_Date").

End Views.

(** A frame without a Genre column, one title listed twice. *)
Definition df_no_genre : DataFrame :=
  {| columns := ["Release_Date"; "Title"; "Popularity"; "Vote_Count";
                 "Vote_Average"];
     rows :=
       (fun '(date, title, pop, count, avg) =>
          row_of [("Release_Date", Str date); ("Title", Str title);
                  ("Popularity", Num pop); ("Vote_Count", Num count);
                  ("Vote_Average", Num avg)])
       <$> [("2020-05-01", "X", 251 # 5, 100, 15 # 2);
            ("2019-03-02", "Y", 10, 20, 6);
            ("2020-05-01", "X", 251 # 5, 100, 15 # 2)]%Q |}.

(** A title whose Genre is missing. *)
Definition row_without_genre : gmap string value :=
  row_of [("Release_Date", Str "2020-05-01"); ("Title", Str "X");
          ("Overview", Str "..."); ("Popularity", Num (251 # 5));
          ("Vote_Count", Num 100); ("Vote_Average", Num (15 # 2));
          ("Original_Language", Str "en"); ("Genre", NA);
          ("Poster_Url", Str "...")].

Definition df_missing_genre : DataFrame :=
  {| columns := raw_columns;
     rows := [row_without_genre;
              raw_row "2019-03-02" "Y" (Num 10) (Num 20) (Num 6) "Drama"] |}.

(** Two titles whose release timestamps carry different UTC offsets. *)
Definition df_mixed_offsets : DataFrame :=
  {| columns := raw_columns;
     rows := [raw_row "2020-05-01T10:00:00+01:00" "X" (Num (251 # 5))
                (Num 100) (Num (15 # 2)) "Drama, Romance";
              raw_row "2019-03-02T10:00:00+02:00" "Y" (Num 10) (Num 20)
                (Num 6) "Action"] |}.

(** The header of the dataset without any row. *)
Definition df_header_only : DataFrame :=
  {| columns := raw_columns; rows := [] |}.

(** * Properties *)

(** ** The exception monad *)

Lemma bind_Ok {A B} (m : result A) (k : A -> result B) (b : B) :
  (m ≫= k) = Ok b -> exists a, m = Ok a /\ k a = Ok b.
Proof. destruct m as [a|e]; simpl; [eauto | discriminate]. Qed.

(** Closes a decidable goal on closed terms by evaluation. *)
Ltac by_compute := apply (bool_decide_unpack _); vm_compute; exact I.

Lemma Qle_bool_false (a b : Q) : Qle_bool a b = false -> (b < a)%Q.
Proof.
  intros H. apply Qnot_le_lt. intros Hle%Qle_bool_iff. congruence.
Qed.

Ltac split_comparisons :=
  repeat match goal with
  | |- context [Qle_bool ?a ?b] =>
      let E := fresh "E" in
      destruct (Qle_bool a b) eqn:E;
      [apply Qle_bool_iff in E | apply Qle_bool_false in E]
  | |- context [Qeq_bool ?a ?b] =>
      let E := fresh "E" in
      destruct (Qeq_bool a b) eqn:E;
      [apply Qeq_bool_iff in E | apply Qeq_bool_neq in E]
  end.

Ltac inv_bind H :=
  let a := fresh "df" in
  let Ha := fresh "H" a in
  apply bind_Ok in H; destruct H as (a & Ha & H).

(** ** Lists: first occurrences and sorting *)

Section Lists.

Context {A : Type} (eqb : A -> A -> bool).

Lemma keep_first_incl seen l x : x ∈ keep_first eqb seen l -> x ∈ l.
Proof.
  revert seen; induction l as [|y l IH]; intros seen; simpl; [easy|].
  destruct (existsb (eqb y) seen).
  - intros H; right; eauto.
  - rewrite !elem_of_cons; intros [->|H]; eauto.
Qed.

Lemma keep_first_length seen l : length (keep_first eqb seen l) <= length l.
Proof.
  revert seen; induction l as [|y l IH]; intros seen; simpl; [lia|].
  destruct (existsb (eqb y) seen); simpl.
  - specialize (IH seen); lia.
  - specialize (IH (y :: seen)); lia.
Qed.

Lemma unique_incl l x : x ∈ unique eqb l -> x ∈ l.
Proof. apply keep_first_incl. Qed.

Lemma unique_length l : length (unique eqb l) <= length l.
Proof. apply keep_first_length. Qed.

(** Nothing kept matches an element already seen. *)
Lemma keep_first_fresh seen l x y :
  x ∈ keep_first eqb seen l -> y ∈ seen -> eqb x y = false.
Proof.
  revert seen; induction l as [|z l IH]; intros seen; simpl; [inversion 1|].
  destruct (existsb (eqb z) seen) eqn:E.
  - eauto.
  - rewrite elem_of_cons; intros [->|Hx] Hy.
    + destruct (eqb z y) eqn:Ezy; [|easy].
      assert (existsb (eqb z) seen = true); [|congruence].
      apply existsb_exists; exists y; split; [now apply list_elem_of_In|easy].
    + apply (IH (z :: seen)); [easy|now right].
Qed.

(** Of two kept elements the later one does not match the earlier one. *)
Lemma keep_first_distinct seen l i j x y :
  i < j ->
  keep_first eqb seen l !! i = Some x ->
  keep_first eqb seen l !! j = Some y ->
  eqb y x = false.
Proof.
  revert seen i j; induction l as [|z l IH]; intros seen i j Hij; simpl;
    [now rewrite lookup_nil|].
  destruct (existsb (eqb z) seen) eqn:E; [now apply IH|].
  destruct j as [|j]; [lia|]; destruct i as [|i]; simpl.
  - intros [= ->] Hy. eapply keep_first_fresh.
    + eapply list_elem_of_lookup_2, Hy.
    + now left.
  - apply IH; lia.
Qed.

Lemma keep_first_idem seen l :
  keep_first eqb seen (keep_first eqb seen l) = keep_first eqb seen l.
Proof.
  revert seen; induction l as [|x l IH]; intros seen; simpl; [easy|].
  destruct (existsb (eqb x) seen) eqn:E; [apply IH|].
  simpl. rewrite E. f_equal. apply IH.
Qed.

Lemma filter_all (p : A -> bool) l :
  (forall x, x ∈ l -> p x = true) -> List.filter p l = l.
Proof.
  induction l as [|x l IH]; simpl; [easy|]. intros H.
  rewrite (H x) by now left. f_equal. apply IH. intros y Hy. apply H.
  now right.
Qed.

Lemma sublist_filter_bool (p : A -> bool) l :
  List.filter p l `sublist_of` l.
Proof.
  induction l as [|x l IH]; simpl; [constructor|].
  destruct (p x); now constructor.
Qed.

Lemma sublist_keep_first seen l : keep_first eqb seen l `sublist_of` l.
Proof.
  revert seen; induction l as [|x l IH]; intros seen; simpl; [constructor|].
  destruct (existsb (eqb x) seen); constructor; apply IH.
Qed.

Lemma bind_singletons (f : A -> list A) l :
  (forall x, x ∈ l -> f x = [x]) -> l ≫= f = l.
Proof.
  induction l as [|x l IH]; [easy|]. intros H.
  rewrite bind_cons, (H x) by now left. simpl. f_equal.
  apply IH. intros y Hy. apply H. now right.
Qed.

(** Every element matches one that was seen or is kept. *)
Lemma keep_first_covers seen l x :
  (forall y, eqb y y = true) -> x ∈ l ->
  exists y, (y ∈ seen \/ y ∈ keep_first eqb seen l) /\ eqb x y = true.
Proof.
  intros Hrefl. revert seen; induction l as [|z l IH]; intros seen;
    [now intros ?%elem_of_nil|].
  rewrite elem_of_cons; simpl. intros [->|Hx].
  - destruct (existsb (eqb z) seen) eqn:E.
    + apply existsb_exists in E as (y & Hy%list_elem_of_In & Hzy). eauto.
    + exists z. split; [right; now left|easy].
  - destruct (existsb (eqb z) seen) eqn:E.
    + destruct (IH seen Hx) as (y & Hy & Hxy). eauto.
    + destruct (IH (z :: seen) Hx) as (y & Hy & Hxy). exists y; split; [|easy].
      rewrite !elem_of_cons in *. tauto.
Qed.

Lemma keep_first_all_seen seen l :
  (forall y, y ∈ l -> existsb (eqb y) seen = true) ->
  keep_first eqb seen l = [].
Proof.
  induction l as [|x l IH]; simpl; [easy|]. intros H.
  rewrite (H x) by now left. apply IH. intros y Hy. apply H. now right.
Qed.

(** A list whose elements all match its head has one distinct element. *)
Lemma unique_all_equal l :
  (forall x y, x ∈ l -> y ∈ l -> eqb x y = true) ->
  length (unique eqb l) <= 1.
Proof.
  destruct l as [|x l]; simpl; [lia|]. intros H.
  rewrite keep_first_all_seen; [simpl; lia|].
  intros y Hy. simpl. rewrite (H y x); [easy|now right|now left].
Qed.

Lemma elem_of_insert_by x y l : y ∈ insert_by eqb x l <-> y = x \/ y ∈ l.
Proof.
  induction l as [|z l IH]; simpl.
  - rewrite list_elem_of_singleton, elem_of_nil. tauto.
  - destruct (eqb z x); rewrite !elem_of_cons; [rewrite IH|]; tauto.
Qed.

Lemma elem_of_sorted y l : y ∈ sorted eqb l <-> y ∈ l.
Proof.
  unfold sorted; induction l as [|x l IH]; simpl; [easy|].
  now rewrite elem_of_insert_by, elem_of_cons, IH.
Qed.

Lemma length_insert_by x l : length (insert_by eqb x l) = S (length l).
Proof.
  induction l as [|z l IH]; simpl; [easy|].
  destruct (eqb z x); simpl; [now rewrite IH|easy].
Qed.

Lemma length_sorted l : length (sorted eqb l) = length l.
Proof.
  unfold sorted; induction l as [|x l IH]; simpl; [easy|].
  now rewrite length_insert_by, IH.
Qed.

End Lists.

(** ** Mapping through first occurrences and sorting *)

Lemma keep_first_fmap {A B} (f : A -> B) (eqA : A -> A -> bool)
    (eqB : B -> B -> bool) seen l :
  (forall x y, eqB (f x) (f y) = eqA x y) ->
  keep_first eqB (f <$> seen) (f <$> l) = f <$> keep_first eqA seen l.
Proof.
  intros Hf. revert seen; induction l as [|x l IH]; intros seen; [easy|].
  rewrite fmap_cons; simpl.
  assert (E : existsb (eqB (f x)) (f <$> seen) = existsb (eqA x) seen).
  { clear IH. induction seen as [|y seen IHs]; [easy|].
    rewrite fmap_cons; simpl. now rewrite Hf, IHs. }
  rewrite E. destruct (existsb (eqA x) seen); [apply IH|].
  rewrite fmap_cons. f_equal. apply (IH (x :: seen)).
Qed.

Lemma sorted_fmap {A B} (f : A -> B) (ltA : A -> A -> bool)
    (ltB : B -> B -> bool) l :
  (forall x y, ltB (f x) (f y) = ltA x y) ->
  sorted ltB (f <$> l) = f <$> sorted ltA l.
Proof.
  intros Hf. unfold sorted. induction l as [|x l IH]; [easy|].
  rewrite fmap_cons; simpl. rewrite IH. clear IH.
  induction (foldr (insert_by ltA) [] l) as [|y t IHt]; [easy|].
  rewrite fmap_cons; simpl. rewrite Hf.
  destruct (ltA y x); rewrite !fmap_cons; [now rewrite IHt|easy].
Qed.

(** ** Sorting numbers *)

Lemma Qltb_lt (p q : Q) : Qltb p q = true <-> (p < q)%Q.
Proof.
  unfold Qltb. rewrite negb_true_iff. split.
  - intros H. apply Qnot_le_lt. intros Hle%Qle_bool_iff. congruence.
  - intros H. apply not_true_is_false. intros Hle%Qle_bool_iff.
    now apply Qlt_not_le in H.
Qed.

Lemma strictly_increasing_cons a l :
  strictly_increasing (a :: l) <->
  (forall y, y ∈ l -> (a < y)%Q) /\ strictly_increasing l.
Proof.
  revert a; induction l as [|b l IH]; intros a.
  - simpl. split; [|easy]. intros _; split; [|easy]. now intros y ?%elem_of_nil.
  - change (strictly_increasing (a :: b :: l))
      with ((a < b)%Q /\ strictly_increasing (b :: l)).
    rewrite (IH b). split.
    + intros (Hab & Hb & Hl). split; [|easy].
      intros y [->|Hy]%elem_of_cons; [easy|].
      eapply Qlt_trans; [exact Hab|now apply Hb].
    + intros (Ha & Hb & Hl). split; [apply Ha; now left|easy].
Qed.

Lemma insert_strictly_increasing x l :
  strictly_increasing l -> (forall y, y ∈ l -> ~ (x == y)%Q) ->
  strictly_increasing (insert_by Qltb x l).
Proof.
  induction l as [|b l IH]; [easy|]. intros Hl Hx; simpl.
  apply strictly_increasing_cons in Hl as [Hb Hl].
  destruct (Qltb b x) eqn:E.
  - apply Qltb_lt in E. apply strictly_increasing_cons. split.
    + intros y [->|Hy]%elem_of_insert_by; [easy|now apply Hb].
    + apply IH; [easy|]. intros y Hy. apply Hx. now right.
  - assert (Hxb : (x < b)%Q).
    { destruct (Q_dec x b) as [[H|H]|H]; [easy| |].
      - apply Qltb_lt in H. congruence.
      - exfalso. apply (Hx b); [now left|easy]. }
    apply strictly_increasing_cons. split.
    + intros y [->|Hy]%elem_of_cons; [easy|].
      eapply Qlt_trans; [exact Hxb|now apply Hb].
    + apply strictly_increasing_cons. now split.
Qed.

Lemma sorted_strictly_increasing l :
  all_differ l -> strictly_increasing (sorted Qltb l).
Proof.
  unfold sorted. induction l as [|x l IH]; [easy|]. intros [Hx Hl]; simpl.
  apply insert_strictly_increasing; [now apply IH|].
  intros y Hy. apply Hx. now apply (elem_of_sorted Qltb y l).
Qed.

Lemma keep_first_all_differ seen l :
  all_differ (keep_first Qeq_bool seen l).
Proof.
  revert seen; induction l as [|x l IH]; intros seen; simpl; [easy|].
  destruct (existsb (Qeq_bool x) seen) eqn:E; [apply IH|].
  split; [|apply IH]. intros y Hy Hxy.
  assert (Qeq_bool y x = false) as Hne.
  { eapply keep_first_fresh; [exact Hy|now left]. }
  apply Qeq_bool_neq in Hne. apply Hne. now symmetry.
Qed.

Lemma strictly_increasing_increasing l :
  strictly_increasing l -> increasing l = true.
Proof.
  induction l as [|a [|b l] IH]; [easy..|]. intros [Hab Hl].
  change (Qle_bool a b && increasing (b :: l) = true).
  rewrite IH by easy. rewrite andb_true_r.
  apply Qle_bool_iff. now apply Qlt_le_weak.
Qed.

Lemma strictly_increasing_unique l :
  strictly_increasing l -> unique Qeq_bool l = l.
Proof.
  unfold unique.
  assert (H : forall seen,
    (forall s y, s ∈ seen -> y ∈ l -> (s < y)%Q) ->
    strictly_increasing l -> keep_first Qeq_bool seen l = l);
    [|intros Hl; apply H; [now intros s y ?%elem_of_nil|easy]].
  induction l as [|x l IH]; intros seen Hseen Hl; simpl; [easy|].
  apply strictly_increasing_cons in Hl as [Hx Hl].
  assert (E : existsb (Qeq_bool x) seen = false).
  { apply not_true_is_false.
    intros (s & Hs%list_elem_of_In & Hxs)%existsb_exists.
    apply Qeq_bool_iff in Hxs.
    assert (s < x)%Q as Hlt by (apply Hseen; [easy|now left]).
    rewrite Hxs in Hlt. now apply Qlt_irrefl in Hlt. }
  rewrite E. f_equal. apply IH; [|easy].
  intros s y [->|Hs]%elem_of_cons Hy; [now apply Hx|].
  apply Hseen; [easy|now right].
Qed.

(** ** Rows *)

Lemma row_complete_spec cs (r : gmap string value) :
  row_complete cs r = true <->
  forall c, c ∈ cs -> exists v, r !! c = Some v /\ v <> NA.
Proof.
  unfold row_complete; rewrite forallb_forall; split.
  - intros H c Hc. apply list_elem_of_In, H in Hc. unfold cell in Hc.
    destruct (r !! c) as [[]|]; simpl in Hc; try discriminate; eauto.
  - intros H c Hc. apply list_elem_of_In, H in Hc as (v & Hv & Hna).
    unfold cell; rewrite Hv; now destruct v.
Qed.

Lemma value_eqb_sym a b : value_eqb a b = value_eqb b a.
Proof.
  destruct a, b; simpl; try reflexivity.
  - apply bool_decide_ext; split; congruence.
  - apply Qeq_bool_comm.
Qed.

Lemma row_eqb_false cs (r1 r2 : gmap string value) :
  row_eqb cs r1 r2 = false ->
  exists c, c ∈ cs /\ value_eqb (cell r1 c) (cell r2 c) = false.
Proof.
  induction cs as [|c cs IH]; simpl; [discriminate|].
  destruct (value_eqb (cell r1 c) (cell r2 c)) eqn:E; simpl.
  - intros (c' & Hc' & H)%IH. exists c'; split; [now right|easy].
  - intros _. exists c; split; [now left|easy].
Qed.

Lemma no_duplicates_row_eqb df i j (r1 r2 : gmap string value) :
  no_duplicates df -> i <> j ->
  rows df !! i = Some r1 -> rows df !! j = Some r2 ->
  row_eqb (columns df) r1 r2 = false.
Proof.
  intros H Hij H1 H2. destruct (H i j r1 r2 Hij H1 H2) as (c & Hc & Hne).
  apply not_true_is_false; unfold row_eqb; rewrite forallb_forall.
  intros Hall. apply list_elem_of_In, Hall in Hc. congruence.
Qed.

Lemma row_eqb_sym cs (r1 r2 : gmap string value) :
  row_eqb cs r1 r2 = row_eqb cs r2 r1.
Proof.
  unfold row_eqb; induction cs as [|c cs IH]; simpl; [easy|].
  now rewrite IH, value_eqb_sym.
Qed.

Lemma value_eqb_refl v : value_eqb v v = true.
Proof.
  destruct v; simpl; [easy|now apply bool_decide_eq_true|apply Qeq_bool_refl].
Qed.

Lemma row_eqb_refl cs (r : gmap string value) : row_eqb cs r r = true.
Proof.
  unfold row_eqb. apply forallb_forall. intros c _. apply value_eqb_refl.
Qed.

Lemma row_eqb_Str cs (r1 r2 : gmap string value) c s :
  row_eqb cs r1 r2 = true -> c ∈ cs -> r2 !! c = Some (Str s) ->
  r1 !! c = Some (Str s).
Proof.
  unfold row_eqb. rewrite forallb_forall. intros H Hc%list_elem_of_In Hs.
  apply H in Hc. unfold cell in Hc. rewrite Hs in Hc.
  destruct (r1 !! c) as [[|t|q]|]; simpl in Hc; try discriminate.
  apply bool_decide_eq_true in Hc. now subst.
Qed.

Lemma map_col_Ok f c df df' :
  map_col f c df = Ok df' ->
  c ∈ columns df /\ columns df' = columns df /\
  rows df' = (fun r => <[c := f (cell r c)]> r) <$> rows df.
Proof.
  unfold map_col; destruct (decide (c ∈ columns df)); [|discriminate].
  now intros [= <-].
Qed.

Lemma map_col_present f c df :
  c ∈ columns df -> exists df', map_col f c df = Ok df'.
Proof. unfold map_col; intros H. rewrite decide_True by easy. eauto. Qed.

(** ** Splitting *)

Lemma split_from_nonempty sep k s : split_from sep k s <> [].
Proof.
  revert k; induction s as [|c s IH]; intros k; cbn [split_from]; [easy|].
  destruct k; [|apply IH].
  destruct (String.prefix sep (String c s)); [easy|].
  unfold cons_first; now destruct (split_from sep 0 s).
Qed.

Lemma str_split_nonempty sep s : str_split sep s <> [].
Proof. apply split_from_nonempty. Qed.

Lemma prefix_nil s : String.prefix EmptyString s = true.
Proof. now destruct s. Qed.

Lemma prefix_cons a u b s :
  String.prefix (String a u) (String b s) = true <->
  a = b /\ String.prefix u s = true.
Proof.
  simpl. destruct (ascii_dec a b) as [->|Hne]; [tauto|].
  split; [discriminate|]. now intros [? _].
Qed.

Lemma append_cons a (u v : string) : String a u +:+ v = String a (u +:+ v).
Proof. reflexivity. Qed.

Lemma append_nil_l (v : string) : EmptyString +:+ v = v.
Proof. reflexivity. Qed.

Lemma prefix_append u s :
  String.prefix u s = true <-> exists rest, s = u +:+ rest.
Proof.
  revert s; induction u as [|a u IH]; intros s.
  - rewrite prefix_nil. split; [eauto|easy].
  - destruct s as [|b s].
    + split; [discriminate|]. now intros [rest Hrest].
    + rewrite prefix_cons, IH. split.
      * intros [-> [rest ->]]. now exists rest.
      * intros [rest Hrest]. rewrite append_cons in Hrest.
        injection Hrest as -> ->. eauto.
Qed.

Lemma append_assoc (u v w : string) : (u +:+ v) +:+ w = u +:+ v +:+ w.
Proof.
  induction u as [|a u IH]; [easy|]. rewrite !append_cons. now f_equal.
Qed.

Lemma append_nil_r (u : string) : u +:+ EmptyString = u.
Proof.
  induction u as [|a u IH]; [easy|]. rewrite append_cons. now f_equal.
Qed.

Lemma length_append (u v : string) :
  String.length (u +:+ v) = String.length u + String.length v.
Proof.
  induction u as [|a u IH]; [easy|]. rewrite append_cons; simpl. now f_equal.
Qed.

Lemma prefix_append_r u s v :
  String.prefix u s = true -> String.prefix u (s +:+ v) = true.
Proof.
  rewrite !prefix_append. intros [rest ->]. exists (rest +:+ v).
  apply append_assoc.
Qed.

Lemma split_from_skip sep u s :
  split_from sep (String.length u) (u +:+ s) = split_from sep 0 s.
Proof.
  induction u as [|a u IH]; [now destruct s|].
  rewrite append_cons. exact IH.
Qed.

Section Splitting.

Context (sep : string) (Hsep : sep <> EmptyString).

Lemma str_split_nil : str_split sep EmptyString = [EmptyString].
Proof. reflexivity. Qed.

Lemma str_split_sep rest :
  str_split sep (sep +:+ rest) = EmptyString :: str_split sep rest.
Proof.
  unfold str_split. destruct sep as [|a u] eqn:E; [easy|].
  rewrite append_cons. cbn [split_from].
  replace (String.prefix (String a u) (String a (u +:+ rest))) with true.
  - cbn [String.length]. rewrite Nat.sub_succ, Nat.sub_0_r.
    now rewrite split_from_skip.
  - symmetry. apply prefix_append. now exists rest.
Qed.

Lemma str_split_cons c s :
  String.prefix sep (String c s) = false ->
  str_split sep (String c s) = cons_first c (str_split sep s).
Proof. unfold str_split; cbn [split_from]. now intros ->. Qed.

(** Splitting follows the text from left to right: a separator at the
    front closes an empty piece, any other character joins the first piece
    of what follows. *)
Lemma str_split_ind (P : string -> list string -> Prop) :
  P EmptyString [EmptyString] ->
  (forall rest, P rest (str_split sep rest) ->
     P (sep +:+ rest) (EmptyString :: str_split sep rest)) ->
  (forall c s, String.prefix sep (String c s) = false ->
     P s (str_split sep s) ->
     P (String c s) (cons_first c (str_split sep s))) ->
  forall s, P s (str_split sep s).
Proof.
  intros Hnil Hsepc Hcons s.
  remember (String.length s) as n eqn:Hn. revert s Hn.
  induction n as [n IH] using lt_wf_ind. intros [|c s] Hn; [exact Hnil|].
  destruct (String.prefix sep (String c s)) eqn:Hp.
  - apply prefix_append in Hp as [rest Hrest]. rewrite Hrest, str_split_sep.
    apply Hsepc. apply (IH (String.length rest)); [|easy].
    rewrite Hn, Hrest, length_append.
    destruct sep; [easy|simpl; lia].
  - rewrite str_split_cons by easy. apply Hcons; [easy|].
    apply (IH (String.length s)); [|easy]. simpl in Hn; lia.
Qed.

Lemma str_join_cons_first c toks :
  toks <> [] ->
  str_join sep (cons_first c toks) = String c (str_join sep toks).
Proof. destruct toks as [|t [|t' ts]]; simpl; easy. Qed.

Lemma str_join_cons t toks :
  toks <> [] -> str_join sep (t :: toks) = t +:+ sep +:+ str_join sep toks.
Proof. destruct toks; easy. Qed.

(** Joining the pieces with the separator gives the text back. *)
Lemma str_join_split s : str_join sep (str_split sep s) = s.
Proof.
  apply str_split_ind with (P := fun s toks => str_join sep toks = s).
  - reflexivity.
  - intros rest IH. rewrite str_join_cons by apply str_split_nonempty.
    now rewrite IH.
  - intros c s' _ IH. rewrite str_join_cons_first by apply str_split_nonempty.
    now rewrite IH.
Qed.

Lemma str_join_prefix t toks : String.prefix t (str_join sep (t :: toks)) = true.
Proof.
  apply prefix_append. destruct toks as [|t' ts].
  - exists EmptyString. simpl. now rewrite append_nil_r.
  - now eexists.
Qed.

(** No piece holds a separator: splitting a piece again leaves it whole. *)
Lemma str_split_piece s t : t ∈ str_split sep s -> str_split sep t = [t].
Proof.
  revert t.
  apply str_split_ind with
    (P := fun s toks => forall t, t ∈ toks -> str_split sep t = [t]).
  - now intros t ->%list_elem_of_singleton.
  - intros rest IH t [->|Ht]%elem_of_cons; [easy|now apply IH].
  - intros c s' Hp IH t Ht.
    pose proof (str_join_split s') as Hjoin.
    destruct (str_split sep s') as [|t0 ts] eqn:E;
      [now apply str_split_nonempty in E|].
    simpl in Ht. apply elem_of_cons in Ht as [->|Ht];
      [|apply IH; now right].
    rewrite str_split_cons.
    + rewrite (IH t0) by now left. reflexivity.
    + destruct (String.prefix sep (String c t0)) eqn:Hp0; [|easy].
      rewrite <- Hp. symmetry.
      pose proof (str_join_prefix t0 ts) as Hpre. rewrite Hjoin in Hpre.
      apply prefix_append in Hpre as [rest' ->].
      rewrite <- append_cons. now apply prefix_append_r.
Qed.

(** A text that holds a separator splits into at least two pieces. *)
Lemma str_split_separated u v : 2 <= length (str_split sep (u +:+ sep +:+ v)).
Proof.
  induction u as [|c u IH].
  - rewrite append_nil_l, str_split_sep; simpl.
    pose proof (str_split_nonempty sep v).
    destruct (str_split sep v); simpl; [easy|lia].
  - rewrite append_cons.
    destruct (String.prefix sep (String c (u +:+ sep +:+ v))) eqn:Hp.
    + apply prefix_append in Hp as [rest ->]. rewrite str_split_sep; simpl.
      pose proof (str_split_nonempty sep rest).
      destruct (str_split sep rest); simpl; [easy|lia].
    + rewrite str_split_cons by easy.
      destruct (str_split sep (u +:+ sep +:+ v)) as [|t ts]; simpl in *; lia.
Qed.

Lemma str_split_piece_clean s t u v :
  t ∈ str_split sep s -> t <> u +:+ sep +:+ v.
Proof.
  intros Ht%str_split_piece ->.
  pose proof (str_split_separated u v) as H. rewrite Ht in H. simpl in H; lia.
Qed.

End Splitting.

Lemma explode_cell_split sep s :
  explode_cell (str_split sep s) = Str <$> str_split sep s.
Proof.
  pose proof (str_split_nonempty sep s).
  unfold explode_cell; now destruct (str_split sep s).
Qed.

Section PipelineFacts.

Context (lib : Scalars).

Lemma explode_row_tokens (r : gmap string value) :
  explode_row lib r =
  (fun t => <["Genre" := Str t]> r)
    <$> str_split ", " (astype_str lib (cell r "Genre")).
Proof.
  unfold explode_row. rewrite explode_cell_split, <- list_fmap_compose.
  reflexivity.
Qed.

Lemma explode_row_complete cs (r r' : gmap string value) :
  row_complete cs r = true -> r' ∈ explode_row lib r ->
  row_complete cs r' = true.
Proof.
  rewrite explode_row_tokens, !row_complete_spec.
  intros H Hr' c Hc. apply list_elem_of_fmap in Hr' as (t & -> & _).
  destruct (decide (c = "Genre")) as [->|Hne].
  - rewrite lookup_insert_eq; eauto.
  - rewrite lookup_insert_ne by congruence. eauto.
Qed.

Lemma row_elimination_complete df (r : gmap string value) :
  r ∈ rows (row_elimination df) -> row_complete (columns df) r = true.
Proof.
  unfold row_elimination, drop_duplicates, dropna; simpl.
  intros H%unique_incl. apply list_elem_of_In, filter_In in H. tauto.
Qed.

Lemma genre_explosion_columns df :
  columns (genre_explosion lib df) = columns df.
Proof. unfold genre_explosion; now destruct (decide _). Qed.

Lemma row_elimination_columns df :
  columns (row_elimination df) = columns df.
Proof. reflexivity. Qed.

Lemma eda_pipeline_Ok df out :
  eda_pipeline lib df = Ok out ->
  exists pre, prepare lib df = Ok pre /\
    out = genre_explosion lib (row_elimination pre).
Proof.
  unfold eda_pipeline; intros H; inv_bind H. injection H as <-. eauto.
Qed.

Lemma cleaned_no_missing df out :
  eda_pipeline lib df = Ok out -> no_missing out.
Proof.
  intros (pre & _ & ->)%eda_pipeline_Ok r c Hr Hc.
  rewrite genre_explosion_columns in Hc.
  revert c Hc; apply row_complete_spec.
  unfold genre_explosion in Hr.
  change (columns (row_elimination pre)) with (columns pre).
  destruct (decide _) as [HG|HG]; [|now apply row_elimination_complete].
  simpl in Hr. apply list_elem_of_bind in Hr as (r0 & Hr & Hr0).
  eapply explode_row_complete; [|exact Hr].
  now apply row_elimination_complete.
Qed.

(** C1. In the output of the cleaning pipeline every row holds a
    non-missing value under every column of the output, the derived
    [Vote_Average_Category] included whenever it is a column. *)
Theorem no_missing_after_cleaning df out :
  eda_pipeline lib df = Ok out -> no_missing out.
Proof. apply cleaned_no_missing. Qed.

(** *** Explosion *)

Lemma genre_explosion_rows cs (l : list (gmap string value)) :
  "Genre" ∈ cs ->
  rows (genre_explosion lib {| columns := cs; rows := l |})
  = l ≫= explode_row lib.
Proof. intros H. unfold genre_explosion; simpl. now rewrite decide_True. Qed.

(** C4. A row whose [Genre] holds N ", "-separated tokens is replaced, in
    place, by exactly N rows; the i-th of them holds the i-th token under
    [Genre] and the cells of the original row under every other column.  For
    "Action, Comedy" these are the two rows for "Action" and "Comedy". *)
Theorem genre_explosion_correct cs l1 l2 (r : gmap string value) g :
  "Genre" ∈ cs -> r !! "Genre" = Some (Str g) ->
  exists toks emitted,
    toks = str_split ", " g /\
    str_join ", " toks = g /\
    (forall t u v, t ∈ toks -> t <> u +:+ ", " +:+ v) /\
    rows (genre_explosion lib {| columns := cs; rows := (l1 ++ r :: l2)%list |})
    = (rows (genre_explosion lib {| columns := cs; rows := l1 |})
       ++ emitted
       ++ rows (genre_explosion lib {| columns := cs; rows := l2 |}))%list /\
    length emitted = length toks /\
    (forall i t, toks !! i = Some t ->
       exists r' : gmap string value,
         emitted !! i = Some r' /\ r' !! "Genre" = Some (Str t) /\
         forall c, c <> "Genre" -> r' !! c = r !! c) /\
    (g = "Action, Comedy" ->
       emitted = [<["Genre" := Str "Action"]> r;
                  <["Genre" := Str "Comedy"]> r]).
Proof.
  intros Hcs Hg.
  exists (str_split ", " g),
    ((fun t => <["Genre" := Str t]> r) <$> str_split ", " g).
  assert (Hrow : explode_row lib r
    = (fun t => <["Genre" := Str t]> r) <$> str_split ", " g).
  { rewrite explode_row_tokens. unfold cell. now rewrite Hg. }
  split; [easy|]. repeat apply conj.
  - now apply str_join_split.
  - intros t u v Ht. now apply str_split_piece_clean with (s := g).
  - rewrite !genre_explosion_rows by easy.
    now rewrite bind_app, bind_cons, Hrow.
  - apply length_fmap.
  - intros i t Ht. exists (<["Genre" := Str t]> r). split; [|split].
    + now rewrite list_lookup_fmap, Ht.
    + apply lookup_insert_eq.
    + intros c Hc. now apply lookup_insert_ne.
  - now intros ->.
Qed.

(** *** Pruning against coercion *)

Lemma lookup_foldr_delete_ne (r : gmap string value) cs c :
  c ∉ cs -> foldr delete r cs !! c = r !! c.
Proof.
  induction cs as [|c' cs IH]; simpl; [easy|].
  rewrite not_elem_of_cons. intros [Hne Hc].
  rewrite lookup_delete_ne by congruence. now apply IH.
Qed.


Lemma elem_of_drop_columns cs df c :
  c ∈ columns (drop_columns cs df) <-> c ∈ columns df /\ c ∉ cs.
Proof.
  unfold drop_columns; simpl. rewrite !list_elem_of_In, filter_In.
  rewrite negb_true_iff, bool_decide_eq_false. now rewrite list_elem_of_In.
Qed.






(** *** Coercion *)

Lemma to_numeric_number v : is_number (to_numeric lib v).
Proof.
  destruct v as [|s|q]; simpl; [now left| |right; eauto].
  destruct (parse_float lib s); [right; eauto|now left].
Qed.

Lemma release_year_number v : is_number (release_year lib v).
Proof.
  destruct v as [|s|q]; simpl; [now left| |].
  - destruct (parse_year lib s); [right; eauto|now left].
  - destruct (year_of_epoch_ns q); [right; eauto|now left].
Qed.

Lemma to_numeric_idem v : to_numeric lib (to_numeric lib v) = to_numeric lib v.
Proof. destruct (to_numeric_number v) as [->|[q ->]]; reflexivity. Qed.

Lemma to_numeric_of_number v : is_number v -> to_numeric lib v = v.
Proof. now intros [->|[q ->]]. Qed.

Lemma cell_insert_eq (r : gmap string value) c v : cell (<[c := v]> r) c = v.
Proof. unfold cell. now rewrite lookup_insert_eq. Qed.

Lemma cell_insert_ne (r : gmap string value) c c' v :
  c <> c' -> cell (<[c := v]> r) c' = cell r c'.
Proof. intros H. unfold cell. now rewrite lookup_insert_ne. Qed.

Lemma map_col_rows f c df df' (r' : gmap string value) :
  map_col f c df = Ok df' -> r' ∈ rows df' ->
  exists r, r ∈ rows df /\ r' = <[c := f (cell r c)]> r.
Proof.
  intros (_ & _ & ->)%map_col_Ok (r & -> & Hr)%list_elem_of_fmap. eauto.
Qed.

Lemma numeric_coercion_present df :
  "Vote_Average" ∈ columns df -> "Vote_Count" ∈ columns df ->
  "Popularity" ∈ columns df ->
  exists df', numeric_coercion lib df = Ok df'.
Proof.
  intros Ha Hc Hp. unfold numeric_coercion.
  destruct (map_col_present (to_numeric lib) _ _ Ha) as [d1 H1].
  rewrite H1; simpl. apply map_col_Ok in H1 as (_ & E1 & _).
  destruct (map_col_present (to_numeric lib) "Vote_Count" d1) as [d2 H2];
    [now rewrite E1|].
  rewrite H2; simpl. apply map_col_Ok in H2 as (_ & E2 & _).
  apply map_col_present. now rewrite E2, E1.
Qed.

Lemma numeric_coercion_cells df df' (r' : gmap string value) c :
  numeric_coercion lib df = Ok df' -> r' ∈ rows df' ->
  c ∈ ["Vote_Average"; "Vote_Count"; "Popularity"] ->
  is_number (cell r' c).
Proof.
  unfold numeric_coercion. intros H Hr' Hc.
  inv_bind H. apply bind_Ok in H as (d2 & H2 & H3).
  destruct (map_col_rows _ _ _ _ _ H3 Hr') as (r2 & Hr2 & ->).
  destruct (map_col_rows _ _ _ _ _ H2 Hr2) as (r1 & Hr1 & ->).
  destruct (map_col_rows _ _ _ _ _ Hdf0 Hr1) as (r0 & Hr0 & ->).
  rewrite !elem_of_cons in Hc.
  destruct Hc as [->|[->|[->|[]%elem_of_nil]]].
  - rewrite !cell_insert_ne, cell_insert_eq by discriminate.
    apply to_numeric_number.
  - rewrite cell_insert_ne, cell_insert_eq by discriminate.
    apply to_numeric_number.
  - rewrite cell_insert_eq. apply to_numeric_number.
Qed.

Lemma date_normalization_Ok df dated :
  date_normalization lib df = Ok dated <->
  map_col (release_year lib) "Release_Date" df = Ok dated /\
  to_datetime_raises lib (series df "Release_Date") = None.
Proof.
  unfold date_normalization, to_datetime_year.
  destruct (map_col (release_year lib) "Release_Date" df) as [d|e]; simpl.
  - destruct (to_datetime_raises lib (series df "Release_Date")); split.
    + discriminate.
    + now intros [_ [=]].
    + now intros [= ->].
    + now intros [[= ->] _].
  - split; [discriminate|now intros [[=] _]].
Qed.

Lemma to_datetime_year_Ok c df dated :
  to_datetime_year lib c df = Ok dated ->
  map_col (release_year lib) c df = Ok dated.
Proof.
  unfold to_datetime_year.
  destruct (map_col (release_year lib) c df) as [d|e]; simpl; [|discriminate].
  now destruct (to_datetime_raises lib (series df c)); [discriminate|].
Qed.

Lemma date_normalization_KeyError df :
  "Release_Date" ∉ columns df ->
  date_normalization lib df = Raise (KeyError "Release_Date").
Proof.
  intros H. unfold date_normalization, to_datetime_year, map_col.
  now rewrite decide_False.
Qed.

Lemma date_normalization_raises df e :
  "Release_Date" ∈ columns df ->
  to_datetime_raises lib (series df "Release_Date") = Some e ->
  date_normalization lib df = Raise e.
Proof.
  intros H He. unfold date_normalization, to_datetime_year, map_col.
  rewrite decide_True by easy; simpl. now rewrite He.
Qed.

Lemma date_normalization_present df :
  "Release_Date" ∈ columns df ->
  to_datetime_raises lib (series df "Release_Date") = None ->
  exists dated, date_normalization lib df = Ok dated.
Proof.
  intros H Hnone.
  destruct (map_col_present (release_year lib) _ _ H) as [dated Hdated].
  exists dated. now apply date_normalization_Ok.
Qed.

(** A column of numbers and missing cells meets no time zone. *)
Lemma to_datetime_raises_no_text col :
  (forall v, v ∈ col -> is_text v = false) ->
  to_datetime_raises lib col = None.
Proof.
  intros H. unfold to_datetime_raises.
  replace (existsb is_text col) with false; [easy|].
  symmetry. apply not_true_is_false. intros (v & Hv & Ht)%existsb_exists.
  apply list_elem_of_In, H in Hv. congruence.
Qed.

Lemma numeric_coercion_rows d coerced :
  numeric_coercion lib d = Ok coerced ->
  columns coerced = columns d /\
  rows coerced = coerce_row lib <$> rows d.
Proof.
  unfold numeric_coercion. intros H.
  apply bind_Ok in H as (d1 & H1 & H). apply bind_Ok in H as (d2 & H2 & H3).
  apply map_col_Ok in H1 as (_ & E1 & R1), H2 as (_ & E2 & R2),
    H3 as (_ & E3 & R3).
  split; [congruence|].
  rewrite R3, R2, R1, <- !list_fmap_compose. reflexivity.
Qed.

Lemma coerce_row_cells (r : gmap string value) c :
  c ∈ ["Vote_Average"; "Vote_Count"; "Popularity"] ->
  cell (coerce_row lib r) c = to_numeric lib (cell r c).
Proof.
  unfold coerce_row. rewrite !elem_of_cons, elem_of_nil.
  intros [->|[->|[->|[]]]].
  - now rewrite !cell_insert_ne, cell_insert_eq by discriminate.
  - now rewrite cell_insert_ne, cell_insert_eq, cell_insert_ne by discriminate.
  - now rewrite cell_insert_eq, !cell_insert_ne by discriminate.
Qed.

Lemma coerce_row_others (r : gmap string value) c :
  c ∉ ["Vote_Average"; "Vote_Count"; "Popularity"] ->
  coerce_row lib r !! c = r !! c.
Proof.
  unfold coerce_row. rewrite !not_elem_of_cons.
  intros (Ha & Hc & Hp & _).
  now rewrite !lookup_insert_ne by congruence.
Qed.

(** C6, as amended.  Numeric coercion never raises on a frame that has the
    three columns: each cell of [Vote_Average], [Vote_Count] and
    [Popularity] is replaced by what [to_numeric] makes of it alone, a
    number kept, a string that reads as a number turned into that
    number, any other string turned into the missing marker; the other
    cells stay.  Date normalization does the same cell by cell, a date
    turned into its year and any other string into the missing marker,
    unless [to_datetime] raises on the column as a whole; then the
    pipeline stops with that exception. *)
Theorem coercion_never_raises df :
  "Release_Date" ∈ columns df -> "Vote_Average" ∈ columns df ->
  "Vote_Count" ∈ columns df -> "Popularity" ∈ columns df ->
  (forall d,
     "Vote_Average" ∈ columns d -> "Vote_Count" ∈ columns d ->
     "Popularity" ∈ columns d ->
     exists coerced,
       numeric_coercion lib d = Ok coerced /\
       columns coerced = columns d /\
       rows coerced = coerce_row lib <$> rows d) /\
  (forall (r : gmap string value) c,
     (c ∈ ["Vote_Average"; "Vote_Count"; "Popularity"] ->
      cell (coerce_row lib r) c = to_numeric lib (cell r c)) /\
     (c ∉ ["Vote_Average"; "Vote_Count"; "Popularity"] ->
      coerce_row lib r !! c = r !! c)) /\
  match to_datetime_raises lib (series df "Release_Date") with
  | Some e =>
      date_normalization lib df = Raise e /\
      prepare lib df = Raise e /\ eda_pipeline lib df = Raise e
  | None =>
      exists dated coerced,
        date_normalization lib df = Ok dated /\
        columns dated = columns df /\
        rows dated
        = (fun r =>
             <["Release_Date" := release_year lib (cell r "Release_Date")]> r)
            <$> rows df /\
        numeric_coercion lib (column_pruning dated) = Ok coerced
  end /\
  (forall q, to_numeric lib (Num q) = Num q) /\
  (forall s q, parse_float lib s = Some q -> to_numeric lib (Str s) = Num q) /\
  (forall s, parse_float lib s = None -> to_numeric lib (Str s) = NA) /\
  to_numeric lib NA = NA /\
  (forall s y, parse_year lib s = Some y ->
     release_year lib (Str s) = Num (inject_Z y)) /\
  (forall s, parse_year lib s = None -> release_year lib (Str s) = NA) /\
  (forall q y, year_of_epoch_ns q = Some y ->
     release_year lib (Num q) = Num (inject_Z y)) /\
  (forall q, year_of_epoch_ns q = None -> release_year lib (Num q) = NA) /\
  release_year lib NA = NA.
Proof.
  intros Hd Ha Hc Hp. repeat apply conj.
  - intros d Hda Hdc Hdp.
    destruct (numeric_coercion_present d Hda Hdc Hdp) as [coerced H].
    exists coerced. split; [easy|]. now apply numeric_coercion_rows.
  - split; [apply coerce_row_cells|apply coerce_row_others].
  - destruct (to_datetime_raises lib (series df "Release_Date")) as [e|] eqn:E.
    + pose proof (date_normalization_raises _ _ Hd E) as Hraise.
      unfold eda_pipeline, prepare. rewrite Hraise. easy.
    + destruct (date_normalization_present _ Hd E) as [dated Hdated].
      pose proof (proj1 (date_normalization_Ok _ _) Hdated) as [Hmap _].
      pose proof (map_col_Ok _ _ _ _ Hmap) as (_ & Ecols & Erows).
      destruct (numeric_coercion_present (column_pruning dated))
        as [coerced Hcoerced].
      1-3: apply elem_of_drop_columns; rewrite Ecols; split;
        [easy|by_compute].
      exists dated, coerced. easy.
  - reflexivity.
  - intros s q Hs; simpl. now rewrite Hs.
  - intros s Hs; simpl. now rewrite Hs.
  - reflexivity.
  - intros s y Hs; simpl. now rewrite Hs.
  - intros s Hs; simpl. now rewrite Hs.
  - intros q y Hq; simpl. now rewrite Hq.
  - intros q Hq; simpl. now rewrite Hq.
  - reflexivity.
Qed.

(** *** Quantile edges of a constant column *)

Lemma interpolate_constant (a b x frac : Q) :
  (a == x)%Q -> (b == x)%Q -> (Qred (a + (b - a) * frac) == x)%Q.
Proof. intros Ha Hb. rewrite Qred_correct, Ha, Hb. ring. Qed.

Lemma quantile_sorted_constant xs x q v :
  (forall y, y ∈ xs -> (y == x)%Q) ->
  quantile_sorted xs q = Some v -> (v == x)%Q.
Proof.
  intros Hxs. unfold quantile_sorted. destruct xs as [|x0 xs']; [easy|].
  assert (Hnth : forall n, (nth n (x0 :: xs') x0 == x)%Q).
  { intros n. destruct (nth_in_or_default n (x0 :: xs') x0) as [Hin| ->].
    - now apply Hxs, list_elem_of_In.
    - apply Hxs. now left. }
  intros [= <-]. apply interpolate_constant; apply Hnth.
Qed.

Lemma quantile_constant xs x qs a b :
  (forall y, y ∈ xs -> (y == x)%Q) ->
  a ∈ quantile xs qs -> b ∈ quantile xs qs -> float_eqb a b = true.
Proof.
  intros Hxs. unfold quantile.
  intros (qa & -> & _)%list_elem_of_fmap (qb & -> & _)%list_elem_of_fmap.
  assert (Hs : forall y, y ∈ sorted Qltb xs -> (y == x)%Q).
  { intros y Hy%elem_of_sorted. now apply Hxs. }
  destruct (quantile_sorted (sorted Qltb xs) qa) as [va|] eqn:Ea,
           (quantile_sorted (sorted Qltb xs) qb) as [vb|] eqn:Eb; simpl;
    try easy.
  - apply Qeq_bool_iff.
    rewrite (quantile_sorted_constant _ _ _ _ Hs Ea).
    now rewrite (quantile_sorted_constant _ _ _ _ Hs Eb).
  - unfold quantile_sorted in *. now destruct (sorted Qltb xs).
  - unfold quantile_sorted in *. now destruct (sorted Qltb xs).
Qed.

Lemma constant_values_degenerate df col x :
  (forall y, y ∈ omap as_float (series df col) -> (y == x)%Q) ->
  length (unique float_eqb (quantile_edges df col)) < 2.
Proof.
  intros Hconst. unfold quantile_edges.
  eapply Nat.le_lt_trans; [apply unique_length|].
  rewrite length_sorted.
  eapply Nat.le_lt_trans; [apply unique_all_equal|lia].
  intros a b Ha Hb. exact (quantile_constant _ x _ a b Hconst Ha Hb).
Qed.

Lemma constant_column_degenerate df col x :
  constant_column df col x ->
  length (unique float_eqb (quantile_edges df col)) < 2.
Proof.
  intros Hconst. apply constant_values_degenerate with (x := x).
  intros y (v & Hv & Hy)%list_elem_of_omap.
  apply list_elem_of_fmap in Hv as (r & -> & Hr).
  destruct (Hconst r Hr) as [E|(q & E & Hq)]; rewrite E in Hy; simpl in Hy;
    [discriminate|now injection Hy as <-].
Qed.

Lemma map_col_numeric df col :
  col ∈ columns df -> numeric_column df col ->
  map_col (to_numeric lib) col df = Ok df.
Proof.
  intros Hcol Hnum. unfold map_col. rewrite decide_True by easy.
  f_equal. destruct df as [cs l]; simpl in *. f_equal.
  rewrite <- (list_fmap_id l) at 2. apply list_fmap_ext.
  intros _ r Hr%list_elem_of_lookup_2; simpl.
  destruct (Hnum r Hr) as (v & Hv & Hn). unfold cell; rewrite Hv; simpl.
  rewrite to_numeric_of_number by easy. now apply insert_id.
Qed.

(** C5. On a numeric column whose quantile edges number fewer than two
    distinct values, [categorize_col] returns the frame it was given: no
    exception, no derived column. *)
Theorem degenerate_column_skipped df col labels :
  col ∈ columns df -> numeric_column df col ->
  length (unique float_eqb (quantile_edges df col)) < 2 ->
  categorize_col lib df col labels = Ok df.
Proof.
  intros Hcol Hnum Hdeg. unfold categorize_col.
  rewrite map_col_numeric by easy; simpl.
  apply Nat.ltb_lt in Hdeg. now rewrite Hdeg.
Qed.

(** *** The buckets of 1 to 10 *)

(** C7. For the column 1, 2, ..., 10 and the labels a, b, c, d the edges
    are the quantiles 1, 3.25, 5.5, 7.75, 10; the four buckets
    [[1, 3.25]], [(3.25, 5.5]], [(5.5, 7.75]], [(7.75, 10]] take the labels
    in order, each number falls in at most one of them and the ten values
    are all covered; a number outside [[1, 10]] and a missing cell get no
    category. *)
Theorem bucket_edge_policy :
  quantile_edges df_one_to_ten "v"
  = [Some 1; Some (13 # 4); Some (11 # 2); Some (31 # 4); Some 10]%Q /\
  (exists category,
     cut [1; 13 # 4; 11 # 2; 31 # 4; 10]%Q ["a"; "b"; "c"; "d"] = Ok category /\
     (forall x : Q,
        category (Num x)
        = if Qltb x 1 then NA
          else if Qle_bool x (13 # 4) then Str "a"
          else if Qle_bool x (11 # 2) then Str "b"
          else if Qle_bool x (31 # 4) then Str "c"
          else if Qle_bool x 10 then Str "d"
          else NA) /\
     category NA = NA /\
     (forall s, category (Str s) = NA)) /\
  categorize_col lib df_one_to_ten "v" ["a"; "b"; "c"; "d"]
  = Ok df_one_to_ten_binned.
Proof.
  split; [vm_compute; reflexivity|]. split; [|vm_compute; reflexivity].
  eexists; split; [reflexivity|]. split; [|split; reflexivity].
  intros x. unfold cut_value, searchsorted_left, Qltb; simpl.
  split_comparisons; simpl; try reflexivity; exfalso; lra.
Qed.

(** *** What the steps before null handling leave alone *)

Lemma genre_stable_refl df : genre_stable df df.
Proof. split; [easy|]. exists id. now rewrite list_fmap_id. Qed.

Lemma genre_stable_trans d1 d2 d3 :
  genre_stable d1 d2 -> genre_stable d2 d3 -> genre_stable d1 d3.
Proof.
  intros [H1 (f & Hf & Hfg)] [H2 (g & Hg & Hgg)]. split; [tauto|].
  exists (g ∘ f). split.
  - now rewrite Hg, Hf, <- list_fmap_compose.
  - intros r; simpl. now rewrite Hgg, Hfg.
Qed.

Lemma map_col_genre_stable f c df df' :
  c <> "Genre" -> map_col f c df = Ok df' -> genre_stable df df'.
Proof.
  intros Hc (_ & Ecols & Erows)%map_col_Ok. split; [now rewrite Ecols|].
  eexists; split; [exact Erows|]. intros r; simpl.
  now apply lookup_insert_ne.
Qed.

Lemma assign_col_genre_stable f c df :
  c <> "Genre" -> genre_stable df (assign_col c f df).
Proof.
  intros Hc. split.
  - unfold assign_col; simpl. destruct (decide _); [easy|].
    rewrite elem_of_app, list_elem_of_singleton. split; [|tauto].
    intros [H|H]; [easy|congruence].
  - eexists; split; [reflexivity|]. intros r; simpl.
    now apply lookup_insert_ne.
Qed.

Lemma column_pruning_genre_stable df : genre_stable df (column_pruning df).
Proof.
  split.
  - unfold column_pruning. rewrite elem_of_drop_columns.
    split; [tauto|]. intros H; split; [easy|by_compute].
  - eexists; split; [reflexivity|]. intros r.
    apply (lookup_foldr_delete_ne r cols). by_compute.
Qed.

Lemma categorize_col_genre_stable df col labels df' :
  col <> "Genre" -> col +:+ "_Category" <> "Genre" ->
  categorize_col lib df col labels = Ok df' -> genre_stable df df'.
Proof.
  intros Hcol Hcat H. unfold categorize_col in H. inv_bind H.
  apply map_col_genre_stable in Hdf0; [|easy].
  destruct (_ <? 2); [injection H as <-; easy|].
  destruct (all_floats _); [|discriminate].
  apply bind_Ok in H as (category & _ & [= <-]).
  eapply genre_stable_trans; [exact Hdf0|].
  now apply assign_col_genre_stable.
Qed.

Lemma prepare_genre_stable df pre :
  prepare lib df = Ok pre -> genre_stable df pre.
Proof.
  unfold prepare, date_normalization, numeric_coercion. intros H.
  inv_bind H. apply to_datetime_year_Ok in Hdf0.
  apply bind_Ok in H as (d4 & H & Hcat).
  apply bind_Ok in H as (d2 & H2 & H). apply bind_Ok in H as (d3 & H3 & H4).
  apply map_col_genre_stable in Hdf0, H2, H3, H4; try discriminate.
  apply categorize_col_genre_stable in Hcat; try discriminate.
  pose proof (column_pruning_genre_stable df0).
  eauto 10 using genre_stable_trans.
Qed.

(** A complete row outlives null and duplicate handling, in itself or in an
    earlier row equal to it. *)
Lemma row_elimination_keeps df (r : gmap string value) :
  r ∈ rows df -> row_complete (columns df) r = true ->
  exists r', r' ∈ rows (row_elimination df) /\
    row_eqb (columns df) r r' = true.
Proof.
  intros Hr Hc. unfold row_elimination, drop_duplicates, dropna; simpl.
  destruct (keep_first_covers (row_eqb (columns df)) []
              (List.filter (row_complete (columns df)) (rows df)) r)
    as (r' & [[]%elem_of_nil|Hr'] & Heq).
  - intros y. apply row_eqb_refl.
  - apply list_elem_of_In, filter_In. split; [now apply list_elem_of_In|easy].
  - eauto.
Qed.

(** C10. Null handling runs before the explosion: a row that is complete
    when nulls are dropped, and whose [Genre] splits into pieces one of
    which is empty (as "Action, " does), leaves in the output a row whose
    [Genre] is the empty string. *)
Theorem empty_genre_token_survives df pre i (r0 r : gmap string value) g :
  prepare lib df = Ok pre ->
  "Genre" ∈ columns df ->
  rows df !! i = Some r0 -> r0 !! "Genre" = Some (Str g) ->
  "" ∈ str_split ", " g ->
  rows pre !! i = Some r -> row_complete (columns pre) r = true ->
  exists out r',
    eda_pipeline lib df = Ok out /\ r' ∈ rows out /\
    r' !! "Genre" = Some (Str "") /\ isna (cell r' "Genre") = false.
Proof.
  intros Hpre Hcol Hr0 Hg Hempty Hr Hcomplete.
  destruct (prepare_genre_stable _ _ Hpre) as [Hcols (f & Hf & Hfg)].
  assert (Hrg : r !! "Genre" = Some (Str g)).
  { rewrite Hf, list_lookup_fmap, Hr0 in Hr. injection Hr as <-.
    now rewrite Hfg. }
  destruct (row_elimination_keeps pre r) as (r1 & Hr1 & Heq);
    [eapply list_elem_of_lookup_2, Hr|easy|].
  assert (Hr1g : r1 !! "Genre" = Some (Str g)).
  { rewrite row_eqb_sym in Heq. eapply row_eqb_Str; [exact Heq| |exact Hrg].
    now apply Hcols. }
  exists (genre_explosion lib (row_elimination pre)), (<["Genre" := Str ""]> r1).
  split; [unfold eda_pipeline; now rewrite Hpre|]. split.
  - unfold genre_explosion.
    rewrite decide_True by now apply Hcols. simpl.
    apply list_elem_of_bind. exists r1; split; [|easy].
    rewrite explode_row_tokens. unfold cell; rewrite Hr1g; simpl.
    apply list_elem_of_fmap. eauto.
  - rewrite cell_insert_eq. split; [apply lookup_insert_eq|easy].
Qed.

(** *** The loader of the dashboard *)

Lemma explode_row_nonempty (r : gmap string value) :
  1 <= length (explode_row lib r).
Proof.
  rewrite explode_row_tokens, length_fmap.
  pose proof (str_split_nonempty ", " (astype_str lib (cell r "Genre"))).
  destruct (str_split _ _); simpl; [easy|lia].
Qed.

Lemma genre_explosion_length df :
  length (rows df) <= length (rows (genre_explosion lib df)).
Proof.
  unfold genre_explosion. destruct (decide _); [simpl|easy].
  induction (rows df) as [|r l IH]; [simpl; lia|].
  rewrite bind_cons, length_app. pose proof (explode_row_nonempty r).
  simpl; lia.
Qed.

(** C8, as amended.  The dashboard is handed the frame of [load_data]: the
    year of [Release_Date], [Vote_Count] and [Popularity] as numbers, then
    the genre explosion.  Every column of the input is still there, no
    category is derived, [Vote_Average] is as it was read, and every input
    row is kept, complete or not. *)
Theorem load_data_partial_cleaning df handed :
  load_data lib df = Ok handed ->
  columns handed = columns df /\
  handed = genre_explosion lib
             {| columns := columns df; rows := load_row lib <$> rows df |} /\
  (forall r, load_row lib r !! "Vote_Average" = r !! "Vote_Average") /\
  length (rows df) <= length (rows handed).
Proof.
  unfold load_data, date_normalization. intros H.
  inv_bind H. apply to_datetime_year_Ok in Hdf0.
  apply bind_Ok in H as (d1 & H1 & H).
  apply bind_Ok in H as (d2 & H2 & [= <-]).
  apply map_col_Ok in Hdf0 as (_ & E0 & R0), H1 as (_ & E1 & R1),
    H2 as (_ & E2 & R2).
  assert (Hd2 : d2 = {| columns := columns df;
                        rows := load_row lib <$> rows df |}).
  { destruct d2 as [cs l]; simpl in *. rewrite E2, E1, E0, R2, R1, R0.
    now rewrite <- !list_fmap_compose. }
  rewrite Hd2. repeat apply conj.
  - now rewrite genre_explosion_columns.
  - reflexivity.
  - intros r. unfold load_row. now rewrite !lookup_insert_ne by discriminate.
  - etrans; [|apply genre_explosion_length]. simpl. now rewrite length_fmap.
Qed.

(** *** The pipeline returns *)

Lemma all_floats_fmap bins : all_floats (Some <$> bins) = Some bins.
Proof.
  induction bins as [|b bins IH]; [easy|].
  rewrite fmap_cons; simpl. now rewrite IH.
Qed.

Lemma quantile_nonempty xs qs :
  xs <> [] -> exists vs, quantile xs qs = Some <$> vs /\ length vs = length qs.
Proof.
  intros Hxs. unfold quantile.
  destruct (sorted Qltb xs) as [|x0 t] eqn:E.
  - apply (f_equal length) in E. rewrite length_sorted in E.
    now destruct xs.
  - unfold quantile_sorted.
    eexists (map _ qs). split; [|apply length_map].
    change (@map Q (option Q)) with (@fmap list _ Q (option Q)).
    change (@map Q Q) with (@fmap list _ Q Q).
    rewrite <- list_fmap_compose. reflexivity.
Qed.

Lemma quantile_edges_bins df col :
  2 <= length (unique float_eqb (quantile_edges df col)) ->
  exists bins, quantile_edges df col = Some <$> bins /\
    strictly_increasing bins /\ 2 <= length bins <= 5.
Proof.
  intros Hlen.
  destruct (omap as_float (series df col)) as [|x0 valid] eqn:Evalid.
  - exfalso. revert Hlen. apply Nat.lt_nge.
    apply constant_values_degenerate with (x := 0%Q).
    rewrite Evalid. now intros y ?%elem_of_nil.
  - unfold quantile_edges in *. rewrite Evalid in *.
    destruct (quantile_nonempty (x0 :: valid) quantile_points)
      as (vs & Hvs & Hvlen); [easy|].
    rewrite Hvs in *. unfold unique in *.
    change (@nil (option Q)) with (Some <$> @nil Q) in *.
    rewrite (keep_first_fmap Some Qeq_bool float_eqb) in * by easy.
    rewrite (sorted_fmap Some Qltb float_ltb) in * by easy.
    eexists; split; [reflexivity|]. split; [|split].
    + apply sorted_strictly_increasing, keep_first_all_differ.
    + etrans; [exact Hlen|].
      etrans; [apply (keep_first_length float_eqb)|].
      now rewrite length_fmap.
    + rewrite length_sorted.
      etrans; [apply keep_first_length|]. now rewrite Hvlen.
Qed.

Lemma cut_labels_ok bins :
  strictly_increasing bins -> 2 <= length bins <= 5 ->
  cut bins (take (length bins - 1) labels)
  = Ok (cut_value bins (take (length bins - 1) labels)).
Proof.
  intros Hinc Hlen. unfold cut.
  rewrite strictly_increasing_increasing by easy.
  rewrite strictly_increasing_unique by easy.
  rewrite Nat.ltb_irrefl; simpl.
  destruct bins as [|a [|b [|c [|d [|e [|f bins]]]]]]; simpl in Hlen;
    try lia; reflexivity.
Qed.

Lemma categorize_col_total df col :
  col ∈ columns df -> exists df', categorize_col lib df col labels = Ok df'.
Proof.
  intros Hcol. unfold categorize_col.
  destruct (map_col_present (to_numeric lib) col df Hcol) as [d1 H1].
  rewrite H1; simpl.
  destruct (length (unique float_eqb (quantile_edges d1 col)) <? 2) eqn:E;
    [eauto|].
  apply Nat.ltb_ge in E.
  destruct (quantile_edges_bins d1 col E) as (bins & -> & Hinc & Hlen).
  rewrite all_floats_fmap, length_fmap, cut_labels_ok by easy; simpl. eauto.
Qed.

(** On the frames of the model, whose numbers are finite and exact, the
    script arrives at a cleaned frame exactly when the four columns it
    indexes are there and [to_datetime] does not raise. *)
Lemma eda_pipeline_total df :
  "Release_Date" ∈ columns df /\ "Vote_Average" ∈ columns df /\
  "Vote_Count" ∈ columns df /\ "Popularity" ∈ columns df /\
  to_datetime_raises lib (series df "Release_Date") = None <->
  exists out, eda_pipeline lib df = Ok out.
Proof.
  split.
  - intros (Hd & Ha & Hc & Hp & Hnone). unfold eda_pipeline, prepare.
    destruct (date_normalization_present _ Hd Hnone) as [d1 H1].
    rewrite H1; simpl.
    apply date_normalization_Ok in H1 as [H1 _].
    apply map_col_Ok in H1 as (_ & E1 & _).
    destruct (numeric_coercion_present (column_pruning d1)) as [d2 H2].
    1-3: apply elem_of_drop_columns; rewrite E1; split; [easy|by_compute].
    rewrite H2; simpl.
    assert (Hcols : columns d2 = columns (column_pruning d1)).
    { unfold numeric_coercion in H2. inv_bind H2.
      apply bind_Ok in H2 as (d4 & H3 & H4).
      apply map_col_Ok in Hdf0 as (_ & Ea & _), H3 as (_ & Ec & _),
        H4 as (_ & Ep & _). congruence. }
    destruct (categorize_col_total d2 "Vote_Average") as [d3 H3].
    { rewrite Hcols. apply elem_of_drop_columns.
      rewrite E1; split; [easy|by_compute]. }
    rewrite H3; simpl. eauto.
  - intros [out H]. unfold eda_pipeline, prepare in H.
    inv_bind H. apply bind_Ok in Hdf0 as (d1 & H1 & H2).
    apply bind_Ok in H2 as (d2 & H2 & _).
    apply date_normalization_Ok in H1 as [H1 Hnone].
    apply map_col_Ok in H1 as (Hd & E1 & _).
    unfold numeric_coercion in H2. inv_bind H2.
    apply bind_Ok in H2 as (d4 & H3 & H4).
    apply map_col_Ok in Hdf1 as (Ha & Ea & _), H3 as (Hc & Ec & _),
      H4 as (Hp & _ & _).
    rewrite Ec, Ea in Hp. rewrite Ea in Hc.
    apply elem_of_drop_columns in Ha as [Ha _], Hc as [Hc _], Hp as [Hp _].
    rewrite E1 in Ha, Hc, Hp. easy.
Qed.

(** *** Steps that leave their own output alone *)

Lemma lookup_foldr_delete_in (r : gmap string value) cs c :
  c ∈ cs -> foldr delete r cs !! c = None.
Proof.
  induction cs as [|c' cs IH]; simpl; [now intros ?%elem_of_nil|].
  destruct (decide (c' = c)) as [->|Hne].
  - intros _. apply lookup_delete_eq.
  - intros [?|Hc]%elem_of_cons; [congruence|].
    rewrite lookup_delete_ne by easy. now apply IH.
Qed.

Lemma column_pruning_idem df :
  column_pruning (column_pruning df) = column_pruning df.
Proof.
  unfold column_pruning, drop_columns; cbn [columns rows]. f_equal.
  - apply filter_all. intros c Hc%list_elem_of_In%filter_In. tauto.
  - rewrite <- list_fmap_compose. apply list_fmap_ext. intros _ r _.
    unfold compose.
    apply map_eq. intros c. destruct (decide (c ∈ cols)) as [Hc|Hc].
    + now rewrite !(lookup_foldr_delete_in _ cols c Hc).
    + now rewrite (lookup_foldr_delete_ne _ cols c Hc).
Qed.

Lemma map_col_makes_numeric c df df' :
  map_col (to_numeric lib) c df = Ok df' -> numeric_column df' c.
Proof.
  intros H r' Hr'. destruct (map_col_rows _ _ _ _ _ H Hr') as (r & _ & ->).
  eexists; split; [apply lookup_insert_eq|apply to_numeric_number].
Qed.

Lemma map_col_keeps_numeric f c c' df df' :
  c <> c' -> map_col f c df = Ok df' ->
  numeric_column df c' -> numeric_column df' c'.
Proof.
  intros Hne H Hnum r' Hr'.
  destruct (map_col_rows _ _ _ _ _ H Hr') as (r & Hr & ->).
  rewrite lookup_insert_ne by easy. now apply Hnum.
Qed.

Lemma numeric_coercion_idem df df' :
  numeric_coercion lib df = Ok df' -> numeric_coercion lib df' = Ok df'.
Proof.
  unfold numeric_coercion. intros H.
  inv_bind H. apply bind_Ok in H as (d2 & H2 & H3).
  pose proof (map_col_makes_numeric _ _ _ Hdf0) as Na.
  pose proof (map_col_makes_numeric _ _ _ H2) as Nc.
  pose proof (map_col_makes_numeric _ _ _ H3) as Np.
  assert (Hac : "Vote_Count" <> "Vote_Average") by discriminate.
  assert (Hap : "Popularity" <> "Vote_Average") by discriminate.
  assert (Hcp : "Popularity" <> "Vote_Count") by discriminate.
  apply (map_col_keeps_numeric _ _ _ _ _ Hac H2) in Na.
  apply (map_col_keeps_numeric _ _ _ _ _ Hap H3) in Na.
  apply (map_col_keeps_numeric _ _ _ _ _ Hcp H3) in Nc.
  apply map_col_Ok in Hdf0 as (Ha & Ea & _), H2 as (Hc & Ec & _),
    H3 as (Hp & Ep & _).
  assert ("Vote_Average" ∈ columns df' /\ "Vote_Count" ∈ columns df' /\
          "Popularity" ∈ columns df') as (Ia & Ic & Ip)
    by (rewrite Ep, Ec, Ea in *; easy).
  rewrite (map_col_numeric _ _ Ia Na); simpl.
  rewrite (map_col_numeric _ _ Ic Nc); simpl.
  exact (map_col_numeric _ _ Ip Np).
Qed.

Lemma row_elimination_idem df :
  row_elimination (row_elimination df) = row_elimination df.
Proof.
  unfold row_elimination, drop_duplicates, dropna; simpl. f_equal.
  rewrite filter_all.
  - apply keep_first_idem.
  - intros r Hr%unique_incl%list_elem_of_In%filter_In. tauto.
Qed.

Lemma explode_row_again (r r' : gmap string value) :
  r' ∈ explode_row lib r -> explode_row lib r' = [r'].
Proof.
  rewrite explode_row_tokens. intros (t & -> & Ht)%list_elem_of_fmap.
  rewrite explode_row_tokens, cell_insert_eq; simpl.
  rewrite (str_split_piece ", " ltac:(discriminate) _ t Ht); simpl.
  now rewrite insert_insert_eq.
Qed.

Lemma genre_explosion_idem df :
  genre_explosion lib (genre_explosion lib df) = genre_explosion lib df.
Proof.
  unfold genre_explosion.
  destruct (decide ("Genre" ∈ columns df)) as [Hg|Hg]; simpl.
  - rewrite decide_True by easy. f_equal. apply bind_singletons.
    intros r' (r & Hr' & _)%list_elem_of_bind.
    now apply explode_row_again with (r := r).
  - now rewrite decide_False.
Qed.

Lemma categorize_col_columns df col labels df' c :
  categorize_col lib df col labels = Ok df' ->
  c ∈ columns df -> c ∈ columns df'.
Proof.
  unfold categorize_col. intros H Hc. inv_bind H.
  apply map_col_Ok in Hdf0 as (_ & E & _). rewrite <- E in Hc.
  destruct (_ <? 2); [now injection H as <-|].
  destruct (all_floats _); [|discriminate].
  apply bind_Ok in H as (category & _ & [= <-]).
  unfold assign_col; simpl. destruct (decide _); [easy|].
  apply elem_of_app. now left.
Qed.

Lemma eda_pipeline_columns df out :
  eda_pipeline lib df = Ok out ->
  "Release_Date" ∈ columns out /\ "Vote_Average" ∈ columns out /\
  "Vote_Count" ∈ columns out /\ "Popularity" ∈ columns out.
Proof.
  intros H.
  assert (Hin : exists out, eda_pipeline lib df = Ok out) by eauto.
  apply eda_pipeline_total in Hin as (Hd & Ha & Hc & Hp & _).
  apply eda_pipeline_Ok in H as (pre & Hpre & ->).
  rewrite genre_explosion_columns, row_elimination_columns.
  assert (Hkeep : forall c, c ∈ columns df -> c ∉ cols -> c ∈ columns pre).
  { intros c Hcin Hcn. unfold prepare in Hpre. inv_bind Hpre.
    apply bind_Ok in Hpre as (d2 & H2 & Hcat).
    eapply categorize_col_columns; [exact Hcat|].
    apply date_normalization_Ok in Hdf0 as [Hdf0 _].
    apply map_col_Ok in Hdf0 as (_ & E0 & _).
    unfold numeric_coercion in H2. inv_bind H2.
    apply bind_Ok in H2 as (d4 & H3 & H4).
    apply map_col_Ok in Hdf1 as (_ & Ea & _), H3 as (_ & Ec & _),
      H4 as (_ & Ep & _).
    rewrite Ep, Ec, Ea. apply elem_of_drop_columns. now rewrite E0. }
  repeat split; apply Hkeep; try easy; by_compute.
Qed.

Lemma row_elimination_sublist df :
  rows (row_elimination df) `sublist_of` rows df.
Proof.
  unfold row_elimination, drop_duplicates, dropna; simpl.
  etrans; [apply sublist_keep_first|apply sublist_filter_bool].
Qed.

Lemma bind_length_singletons {A B} (f : A -> list B) (l : list A) :
  (forall x, x ∈ l -> length (f x) = 1) -> length (l ≫= f) = length l.
Proof.
  induction l as [|x l IH]; [easy|]. intros H.
  rewrite bind_cons, length_app, (H x) by now left. simpl. f_equal.
  apply IH. intros y Hy. apply H. now right.
Qed.

(** A row that came out of the explosion is not split again, whatever has
    been done to its other cells since. *)
Lemma exploded_row_single (r0 r r2 : gmap string value) :
  r ∈ explode_row lib r0 -> r2 !! "Genre" = r !! "Genre" ->
  length (explode_row lib r2) = 1.
Proof.
  rewrite explode_row_tokens. intros (t & -> & Ht)%list_elem_of_fmap E.
  rewrite explode_row_tokens, length_fmap.
  unfold cell. rewrite E, lookup_insert_eq; simpl.
  now rewrite (str_split_piece ", " ltac:(discriminate) _ t Ht).
Qed.

(** A second run never adds a row. *)
Lemma second_run_length df out again :
  eda_pipeline lib df = Ok out -> eda_pipeline lib out = Ok again ->
  length (rows again) <= length (rows out).
Proof.
  intros (pre & Hpre & ->)%eda_pipeline_Ok (pre2 & Hpre2 & ->)%eda_pipeline_Ok.
  destruct (prepare_genre_stable _ _ Hpre2) as (Hcols & f & Hrows & Hf).
  assert (Hlen : length (rows (row_elimination pre2))
                 <= length (rows (genre_explosion lib (row_elimination pre)))).
  { etrans; [apply sublist_length, row_elimination_sublist|].
    now rewrite Hrows, length_fmap. }
  unfold genre_explosion at 1.
  destruct (decide ("Genre" ∈ columns (row_elimination pre2))) as [Hg|Hg];
    [simpl|easy].
  rewrite bind_length_singletons; [easy|].
  intros r2 Hr2.
  apply elem_of_sublist with (l2 := rows pre2) in Hr2;
    [|apply row_elimination_sublist].
  rewrite Hrows in Hr2. apply list_elem_of_fmap in Hr2 as (r & -> & Hr).
  rewrite row_elimination_columns in Hg. apply Hcols in Hg.
  unfold genre_explosion in Hr, Hg.
  destruct (decide ("Genre" ∈ columns (row_elimination pre))) as [Hg1|Hg1];
    [|easy].
  simpl in Hr. apply list_elem_of_bind in Hr as (r0 & Hr & _).
  now apply exploded_row_single with (r0 := r0) (r := r).
Qed.

(** C3, as amended.  When the pipeline is run on its own output and that
    second run returns, its output again has no missing cell and no more
    rows than the first output; column pruning, numeric coercion, row
    elimination and genre explosion each give their own output back when
    run on it. *)
Theorem second_run_clean df out again :
  eda_pipeline lib df = Ok out -> eda_pipeline lib out = Ok again ->
  no_missing again /\
  length (rows again) <= length (rows out) /\
  (forall d, column_pruning (column_pruning d) = column_pruning d) /\
  (forall d d', numeric_coercion lib d = Ok d' ->
     numeric_coercion lib d' = Ok d') /\
  (forall d, row_elimination (row_elimination d) = row_elimination d) /\
  (forall d,
     genre_explosion lib (genre_explosion lib d) = genre_explosion lib d).
Proof.
  intros H Hagain. repeat apply conj.
  - now apply cleaned_no_missing with (df := out).
  - now apply second_run_length with (df := df).
  - apply column_pruning_idem.
  - apply numeric_coercion_idem.
  - apply row_elimination_idem.
  - apply genre_explosion_idem.
Qed.

Lemma unique_rows_distinct cs (l : list (gmap string value)) i j r1 r2 :
  i <> j ->
  unique (row_eqb cs) l !! i = Some r1 ->
  unique (row_eqb cs) l !! j = Some r2 ->
  row_eqb cs r1 r2 = false.
Proof.
  intros Hij H1 H2. destruct (Nat.lt_total i j) as [Hlt|[->|Hlt]]; [| easy |].
  - rewrite row_eqb_sym. eapply keep_first_distinct; eauto.
  - eapply keep_first_distinct; eauto.
Qed.

(** C2, as amended.  Right after null and duplicate handling no two rows
    agree on every column; the output of the pipeline is the genre
    explosion of that frame. *)
Theorem no_duplicates_before_explosion df pre :
  prepare lib df = Ok pre ->
  no_duplicates (row_elimination pre) /\
  eda_pipeline lib df = Ok (genre_explosion lib (row_elimination pre)).
Proof.
  intros Hpre; split.
  - intros i j r1 r2 Hij H1 H2. apply row_eqb_false.
    exact (unique_rows_distinct _ _ i j r1 r2 Hij H1 H2).
  - unfold eda_pipeline. now rewrite Hpre.
Qed.

End PipelineFacts.

(** * Further properties of the two scripts *)

Section ScriptFacts.

Context (lib : Scalars).

(** ** What the script reports and when it raises *)

(** X1. The report loop runs after the drop, so it prints its line for each
    of the three descriptive columns, whether the input had them or not. *)
Theorem column_report_after_pruning df :
  column_report (column_pruning df)
  = [" Column not found: Overview"; " Column not found: Original_Language";
     " Column not found: Poster_Url"].
Proof.
  unfold column_report. rewrite filter_all; [reflexivity|].
  intros c Hc. apply negb_true_iff, bool_decide_eq_false.
  unfold column_pruning. rewrite elem_of_drop_columns. tauto.
Qed.

Lemma map_col_absent f c df :
  c ∉ columns df -> map_col f c df = Raise (KeyError c).
Proof. intros H. unfold map_col. now rewrite decide_False. Qed.

Lemma map_col_columns f c df df' :
  map_col f c df = Ok df' -> columns df' = columns df.
Proof. now intros (_ & E & _)%map_col_Ok. Qed.

Lemma elem_of_pruned_columns df df' c :
  columns df' = columns df -> c ∉ cols ->
  c ∈ columns (column_pruning df') <-> c ∈ columns df.
Proof.
  intros E Hc. unfold column_pruning. rewrite elem_of_drop_columns, E. tauto.
Qed.

Lemma eda_pipeline_first_missing df :
  to_datetime_raises lib (series df "Release_Date") = None ->
  match first_missing indexed_columns df with
  | Some c => eda_pipeline lib df = Raise (KeyError c)
  | None => exists out, eda_pipeline lib df = Ok out
  end.
Proof.
  intros Hnone. unfold first_missing, indexed_columns; simpl.
  destruct (decide ("Release_Date" ∈ columns df)) as [Hd|Hd].
  2: { rewrite bool_decide_eq_false_2 by easy; simpl.
       unfold eda_pipeline, prepare.
       now rewrite date_normalization_KeyError. }
  rewrite bool_decide_eq_true_2 by easy; simpl.
  destruct (date_normalization_present lib _ Hd Hnone) as [d1 Hdate].
  pose proof (proj1 (date_normalization_Ok lib _ _) Hdate) as [H1 _].
  pose proof (map_col_columns _ _ _ _ H1) as E1.
  assert (Hstart : eda_pipeline lib df
    = (d2 ← numeric_coercion lib (column_pruning d1);
       d3 ← categorize_col lib d2 "Vote_Average" labels;
       Ok (genre_explosion lib (row_elimination d3)))).
  { unfold eda_pipeline, prepare. rewrite Hdate; simpl.
    now destruct (numeric_coercion lib (column_pruning d1)). }
  destruct (decide ("Vote_Average" ∈ columns df)) as [Ha|Ha].
  2: { rewrite bool_decide_eq_false_2 by easy; simpl. rewrite Hstart.
       unfold numeric_coercion. rewrite map_col_absent; [easy|].
       rewrite (elem_of_pruned_columns df d1); [easy|easy|by_compute]. }
  rewrite bool_decide_eq_true_2 by easy; simpl.
  destruct (map_col_present (to_numeric lib) "Vote_Average"
              (column_pruning d1)) as [d2 H2];
    [apply (elem_of_pruned_columns df d1); [easy|by_compute|easy]|].
  pose proof (map_col_columns _ _ _ _ H2) as E2.
  destruct (decide ("Vote_Count" ∈ columns df)) as [Hc|Hc].
  2: { rewrite bool_decide_eq_false_2 by easy; simpl. rewrite Hstart.
       unfold numeric_coercion. rewrite H2; simpl.
       rewrite map_col_absent; [easy|]. rewrite E2.
       rewrite (elem_of_pruned_columns df d1); [easy|easy|by_compute]. }
  rewrite bool_decide_eq_true_2 by easy; simpl.
  destruct (decide ("Popularity" ∈ columns df)) as [Hp|Hp].
  2: { rewrite bool_decide_eq_false_2 by easy; simpl. rewrite Hstart.
       unfold numeric_coercion. rewrite H2; simpl.
       destruct (map_col_present (to_numeric lib) "Vote_Count" d2)
         as [d3 H3];
         [rewrite E2; apply (elem_of_pruned_columns df d1);
            [easy|by_compute|easy]|].
       rewrite H3; simpl. rewrite map_col_absent; [easy|].
       rewrite (map_col_columns _ _ _ _ H3), E2.
       rewrite (elem_of_pruned_columns df d1); [easy|easy|by_compute]. }
  rewrite bool_decide_eq_true_2 by easy; simpl.
  now apply eda_pipeline_total.
Qed.

Lemma first_missing_head c cs df :
  first_missing (c :: cs) df = Some c <-> c ∉ columns df.
Proof.
  unfold first_missing; simpl.
  destruct (decide (c ∈ columns df)) as [H|H].
  - rewrite bool_decide_eq_true_2 by easy; simpl. split; [|easy].
    intros Hfind. apply find_some in Hfind as [_ Hc].
    apply negb_true_iff, bool_decide_eq_false in Hc. easy.
  - rewrite bool_decide_eq_false_2 by easy; simpl. easy.
Qed.

(** X2. A frame that lacks one of the four columns the script indexes is
    never cleaned: the script raises [KeyError] for Release_Date when that
    is the absent one; with Release_Date there it raises what [to_datetime]
    raises on that column, if it does, and otherwise [KeyError] for the
    first of Vote_Average, Vote_Count and Popularity that is absent. *)
Theorem eda_pipeline_missing_column df c :
  first_missing indexed_columns df = Some c ->
  eda_pipeline lib df
  = Raise (match to_datetime_raises lib (series df "Release_Date") with
           | Some e => if decide (c = "Release_Date") then KeyError c else e
           | None => KeyError c
           end).
Proof.
  intros Hc.
  destruct (to_datetime_raises lib (series df "Release_Date")) as [e|] eqn:E.
  - destruct (decide (c = "Release_Date")) as [->|Hne].
    + apply first_missing_head in Hc. unfold eda_pipeline, prepare.
      now rewrite date_normalization_KeyError.
    + assert (Hd : "Release_Date" ∈ columns df).
      { destruct (decide ("Release_Date" ∈ columns df)) as [Hd|Hd]; [easy|].
        pose proof (proj2 (first_missing_head "Release_Date"
                             ["Vote_Average"; "Vote_Count"; "Popularity"]
                             df) Hd) as Hfirst.
        change (first_missing indexed_columns df = Some "Release_Date")
          in Hfirst.
        congruence. }
      unfold eda_pipeline, prepare.
      now rewrite (date_normalization_raises lib _ e Hd E).
  - pose proof (eda_pipeline_first_missing df E) as H. now rewrite Hc in H.
Qed.

(** X3. The loader of the dashboard raises [KeyError] for the first of
    Release_Date, Vote_Count and Popularity that is absent, unless
    Release_Date is there and [to_datetime] raises on it first; with the
    three columns there it raises what [to_datetime] raises, and returns
    a frame when [to_datetime] does not raise.  It does not need
    Vote_Average or Genre. *)
Theorem load_data_missing_column df :
  match first_missing loader_columns df,
        to_datetime_raises lib (series df "Release_Date") with
  | Some c, Some e =>
      load_data lib df
      = Raise (if decide (c = "Release_Date") then KeyError c else e)
  | Some c, None => load_data lib df = Raise (KeyError c)
  | None, Some e => load_data lib df = Raise e
  | None, None => exists handed, load_data lib df = Ok handed
  end.
Proof.
  destruct (decide ("Release_Date" ∈ columns df)) as [Hd|Hd].
  2: { pose proof (proj2 (first_missing_head "Release_Date"
                            ["Vote_Count"; "Popularity"] df) Hd) as Hc.
       change (first_missing loader_columns df = Some "Release_Date") in Hc.
       rewrite Hc. unfold load_data.
       rewrite date_normalization_KeyError by easy.
       now destruct (to_datetime_raises lib (series df "Release_Date")). }
  destruct (to_datetime_raises lib (series df "Release_Date")) as [e|] eqn:E.
  { unfold load_data. rewrite (date_normalization_raises lib _ e Hd E).
    destruct (first_missing loader_columns df) as [c|] eqn:Hc; [|easy].
    destruct (decide (c = "Release_Date")) as [->|Hne]; [|easy].
    now apply first_missing_head in Hc. }
  destruct (date_normalization_present lib _ Hd E) as [d1 Hdate].
  pose proof (proj1 (date_normalization_Ok lib _ _) Hdate) as [H1 _].
  pose proof (map_col_columns _ _ _ _ H1) as E1.
  unfold first_missing, loader_columns, load_data; simpl.
  rewrite Hdate; simpl.
  rewrite bool_decide_eq_true_2 by easy; simpl.
  destruct (decide ("Vote_Count" ∈ columns df)) as [Hc|Hc].
  2: { rewrite bool_decide_eq_false_2 by easy; simpl.
       rewrite map_col_absent; [easy|now rewrite E1]. }
  rewrite bool_decide_eq_true_2 by easy; simpl.
  destruct (map_col_present (to_numeric lib) "Vote_Count" d1) as [d2 H2];
    [now rewrite E1|].
  rewrite H2; simpl. pose proof (map_col_columns _ _ _ _ H2) as E2.
  destruct (decide ("Popularity" ∈ columns df)) as [Hp|Hp].
  2: { rewrite bool_decide_eq_false_2 by easy; simpl.
       rewrite map_col_absent; [easy|now rewrite E2, E1]. }
  rewrite bool_decide_eq_true_2 by easy; simpl.
  destruct (map_col_present (to_numeric lib) "Popularity" d2) as [d3 H3];
    [now rewrite E2, E1|].
  rewrite H3; simpl. eauto.
Qed.

(** ** The shape of the cleaned frame *)

Lemma categorize_col_schema df col labels df' :
  categorize_col lib df col labels = Ok df' ->
  columns df' = columns df \/
  (((col +:+ "_Category") ∉ columns df) /\
   columns df' = (columns df ++ [col +:+ "_Category"])%list).
Proof.
  unfold categorize_col. intros H. inv_bind H.
  apply map_col_columns in Hdf0. rewrite <- Hdf0.
  destruct (_ <? 2); [injection H as <-; now left|].
  destruct (all_floats _); [|discriminate].
  apply bind_Ok in H as (category & _ & [= <-]).
  unfold assign_col; simpl. destruct (decide _); [now left|now right].
Qed.

Lemma numeric_coercion_columns df df' :
  numeric_coercion lib df = Ok df' -> columns df' = columns df.
Proof.
  unfold numeric_coercion. intros H. inv_bind H.
  apply bind_Ok in H as (d2 & H2 & H3).
  apply map_col_columns in Hdf0, H2, H3. congruence.
Qed.

Lemma prepare_schema df pre :
  prepare lib df = Ok pre ->
  columns pre = columns (column_pruning df) \/
  (("Vote_Average_Category" ∉ columns df) /\
   columns pre
   = (columns (column_pruning df) ++ ["Vote_Average_Category"])%list).
Proof.
  unfold prepare, date_normalization. intros H. inv_bind H.
  apply to_datetime_year_Ok in Hdf0.
  apply bind_Ok in H as (d2 & H2 & Hcat).
  apply map_col_columns in Hdf0. apply numeric_coercion_columns in H2.
  assert (E : columns (column_pruning df0) = columns (column_pruning df))
    by (unfold column_pruning, drop_columns; simpl; now rewrite Hdf0).
  apply categorize_col_schema in Hcat as [Hc|[Hn Hc]]; rewrite H2, E in Hc.
  - now left.
  - right. split; [|easy]. rewrite H2 in Hn. intros Hin. apply Hn.
    change ("Vote_Average" +:+ "_Category") with "Vote_Average_Category".
    apply (elem_of_pruned_columns df df0); [easy|by_compute|easy].
Qed.

(** X4. The cleaned frame has the columns of the input without the three
    descriptive ones, in their order, followed by Vote_Average_Category
    when the binning added it; the three descriptive columns are never
    among them. *)
Theorem eda_pipeline_schema df out :
  eda_pipeline lib df = Ok out ->
  (columns out = columns (column_pruning df) \/
   (("Vote_Average_Category" ∉ columns df) /\
    columns out
    = (columns (column_pruning df) ++ ["Vote_Average_Category"])%list)) /\
  (forall c, c ∈ cols -> c ∉ columns out).
Proof.
  intros (pre & Hpre & ->)%eda_pipeline_Ok.
  rewrite genre_explosion_columns, row_elimination_columns.
  pose proof (prepare_schema _ _ Hpre) as Hs. split; [exact Hs|].
  intros c Hc Hin.
  assert (Hno : c ∉ columns (column_pruning df)).
  { unfold column_pruning. rewrite elem_of_drop_columns. tauto. }
  destruct Hs as [E|[_ E]]; rewrite E in Hin; [easy|].
  apply elem_of_app in Hin as [Hin|Hin%list_elem_of_singleton]; [easy|].
  subst c. revert Hc. by_compute.
Qed.

(** X5. Without a Genre column nothing is exploded, and the cleaned frame
    itself has no two rows that agree on every column. *)
Theorem no_duplicates_without_genre df out :
  "Genre" ∉ columns df -> eda_pipeline lib df = Ok out ->
  no_duplicates out /\
  exists pre, prepare lib df = Ok pre /\ out = row_elimination pre.
Proof.
  intros Hg (pre & Hpre & ->)%eda_pipeline_Ok.
  destruct (prepare_genre_stable _ _ _ Hpre) as [Hcols _].
  assert (E : genre_explosion lib (row_elimination pre) = row_elimination pre).
  { unfold genre_explosion. rewrite decide_False; [easy|].
    rewrite row_elimination_columns. tauto. }
  rewrite E. split; [|eauto].
  intros i j r1 r2 Hij H1 H2. apply row_eqb_false.
  exact (unique_rows_distinct _ _ i j r1 r2 Hij H1 H2).
Qed.

(** ** The sample view *)

Lemma sample_view_raises draw df :
  sample_view draw df
  = Raise (ValueError
      "Cannot take a larger sample than population when 'replace=False'")
  <-> 1 <= length (rows df) <= 4 /\ columns df <> [].
Proof.
  unfold sample_view, sample, df_empty.
  assert (Hc : columns df <> [] <-> length (columns df) <> 0)
    by (destruct (columns df); simpl; split; congruence).
  rewrite Hc.
  destruct (length (rows df) =? 0) eqn:E0, (length (columns df) =? 0) eqn:E1,
    (length (rows df) <? 5) eqn:E5; simpl;
    rewrite ?Nat.eqb_eq, ?Nat.eqb_neq, ?Nat.ltb_lt, ?Nat.ltb_ge in *;
    (split; [intros H; try discriminate; lia|intros H; try reflexivity; lia]).
Qed.

(** X6. The sample view asks for five rows: on a cleaned frame of one to
    four rows the script raises [ValueError] there, whatever the random
    generator; on an empty frame and from five rows on it does not. *)
Theorem sample_view_small_frame draw df out :
  eda_pipeline lib df = Ok out ->
  (sample_view draw out
   = Raise (ValueError
       "Cannot take a larger sample than population when 'replace=False'")
   <-> 1 <= length (rows out) <= 4) /\
  (length (rows out) = 0 -> sample_view draw out = Ok None) /\
  (5 <= length (rows out) ->
   exists shown, sample_view draw out = Ok (Some shown)).
Proof.
  intros H. apply eda_pipeline_columns in H as (Hd & _).
  assert (Hcols : columns out <> []).
  { intros E. rewrite E in Hd. now apply elem_of_nil in Hd. }
  split; [|split].
  - rewrite sample_view_raises. tauto.
  - intros E. unfold sample_view, df_empty. now rewrite E.
  - intros Hlen. unfold sample_view, sample, df_empty.
    destruct (length (rows out) =? 0) eqn:E0; [apply Nat.eqb_eq in E0; lia|].
    destruct (length (columns out) =? 0) eqn:E1.
    { apply Nat.eqb_eq in E1. now destruct (columns out). }
    simpl. destruct (length (rows out) <? 5) eqn:E5;
      [apply Nat.ltb_lt in E5; lia|]. simpl. eauto.
Qed.

(** ** The release-date view of the dashboard *)

Lemma year_of_small_epoch_ns (y : Z) :
  (0 <= y < ns_per_day)%Z -> year_of_epoch_ns (inject_Z y) = Some 1970%Z.
Proof.
  intros Hy. unfold year_of_epoch_ns, Qtrunc; simpl.
  rewrite Z.quot_1_r.
  assert ((int64_min <? y)%Z = true) as ->
    by (apply Z.ltb_lt; unfold int64_min; lia).
  assert ((y <=? int64_max)%Z = true) as ->
    by (apply Z.leb_le; unfold int64_max, ns_per_day in *; lia).
  simpl. now rewrite Z.div_small.
Qed.

Lemma load_data_rows df handed :
  load_data lib df = Ok handed ->
  "Release_Date" ∈ columns df /\
  handed = genre_explosion lib
             {| columns := columns df; rows := load_row lib <$> rows df |}.
Proof.
  unfold load_data, date_normalization. intros H.
  inv_bind H. apply to_datetime_year_Ok in Hdf0.
  apply bind_Ok in H as (d1 & H1 & H).
  apply bind_Ok in H as (d2 & H2 & [= <-]).
  apply map_col_Ok in Hdf0 as (Hd & E0 & R0), H1 as (_ & E1 & R1),
    H2 as (_ & E2 & R2).
  split; [easy|]. f_equal.
  destruct d2 as [cs l]; simpl in *. rewrite E2, E1, E0, R2, R1, R0.
  now rewrite <- !list_fmap_compose.
Qed.

Lemma load_row_release_date (r : gmap string value) :
  cell (load_row lib r) "Release_Date"
  = release_year lib (cell r "Release_Date").
Proof.
  unfold load_row.
  now rewrite !cell_insert_ne, cell_insert_eq by discriminate.
Qed.

Lemma genre_explosion_cell df (r' : gmap string value) c :
  c <> "Genre" -> r' ∈ rows (genre_explosion lib df) ->
  exists r, r ∈ rows df /\ cell r' c = cell r c.
Proof.
  intros Hc. unfold genre_explosion. destruct (decide _); [|eauto].
  simpl. intros (r & Hr' & Hr)%list_elem_of_bind. exists r; split; [easy|].
  rewrite explode_row_tokens in Hr'.
  apply list_elem_of_fmap in Hr' as (t & -> & _).
  apply cell_insert_ne. congruence.
Qed.

(** X7. The release-date view parses Release_Date again, although
    [load_data] has already reduced it to a year: each year is read as that
    many nanoseconds after 1970-01-01, so every year handed to the
    histogram is 1970, whatever the dates of the titles. *)
Theorem release_date_view_all_1970 df handed :
  load_data lib df = Ok handed ->
  (forall s y, parse_year lib s = Some y -> (0 <= y < ns_per_day)%Z) ->
  (forall r, r ∈ rows df ->
     cell r "Release_Date" = NA \/ exists s, cell r "Release_Date" = Str s) ->
  exists years,
    release_date_years lib handed = Ok years /\
    forall v, v ∈ years -> v = Num (inject_Z 1970).
Proof.
  intros (Hd & ->)%load_data_rows Hrange Htext.
  unfold release_date_years.
  rewrite decide_True by now rewrite genre_explosion_columns.
  rewrite to_datetime_raises_no_text.
  2: { intros v (r' & -> & Hr')%list_elem_of_fmap.
       apply (genre_explosion_cell _ _ "Release_Date") in Hr'
         as (r1 & Hr1 & ->); [|discriminate].
       simpl in Hr1. apply list_elem_of_fmap in Hr1 as (r & -> & _).
       rewrite load_row_release_date.
       now destruct (release_year_number lib (cell r "Release_Date"))
         as [->|[q ->]]. }
  eexists; split; [reflexivity|].
  intros v (Hv & Hna)%list_elem_of_In%filter_In.
  apply list_elem_of_In, list_elem_of_fmap in Hv as (c & -> & Hc).
  apply list_elem_of_fmap in Hc as (r' & -> & Hr').
  apply (genre_explosion_cell _ _ "Release_Date") in Hr' as (r1 & Hr1 & Ec);
    [|discriminate].
  simpl in Hr1. apply list_elem_of_fmap in Hr1 as (r & -> & Hr).
  rewrite Ec, load_row_release_date in *.
  destruct (Htext r Hr) as [E|[s E]]; rewrite E in *; simpl in *;
    [easy|].
  destruct (parse_year lib s) as [y|] eqn:Ey; simpl in *; [|easy].
  now rewrite (year_of_small_epoch_ns y (Hrange s y Ey)).
Qed.

(** ** Most and least popular titles *)

Lemma series_max_spec xs :
  match series_max xs with
  | Some m => m ∈ xs /\ forall x, x ∈ xs -> (x <= m)%Q
  | None => xs = []
  end.
Proof.
  induction xs as [|x xs IH]; simpl; [easy|].
  destruct (series_max xs) as [m|].
  - destruct IH as [Hm Hle]. destruct (Qltb m x) eqn:E.
    + apply Qltb_lt in E. split; [now left|].
      intros y [->|Hy]%elem_of_cons; [apply Qle_refl|].
      apply Qle_trans with m; [now apply Hle|now apply Qlt_le_weak].
    + split; [now right|].
      intros y [->|Hy]%elem_of_cons; [|now apply Hle].
      apply Qnot_lt_le. intros Hlt%Qltb_lt. congruence.
  - subst xs. split; [now left|].
    intros y [->|[]%elem_of_nil]%elem_of_cons. apply Qle_refl.
Qed.

Lemma series_min_spec xs :
  match series_min xs with
  | Some m => m ∈ xs /\ forall x, x ∈ xs -> (m <= x)%Q
  | None => xs = []
  end.
Proof.
  induction xs as [|x xs IH]; simpl; [easy|].
  destruct (series_min xs) as [m|].
  - destruct IH as [Hm Hle]. destruct (Qltb x m) eqn:E.
    + apply Qltb_lt in E. split; [now left|].
      intros y [->|Hy]%elem_of_cons; [apply Qle_refl|].
      apply Qle_trans with m; [now apply Qlt_le_weak|now apply Hle].
    + split; [now right|].
      intros y [->|Hy]%elem_of_cons; [|now apply Hle].
      apply Qnot_lt_le. intros Hlt%Qltb_lt. congruence.
  - subst xs. split; [now left|].
    intros y [->|[]%elem_of_nil]%elem_of_cons. apply Qle_refl.
Qed.

Lemma elem_of_popularity df (r : gmap string value) q :
  r ∈ rows df -> cell r "Popularity" = Num q ->
  q ∈ omap as_float (series df "Popularity").
Proof.
  intros Hr Hq. apply list_elem_of_omap. exists (Num q). split; [|easy].
  apply list_elem_of_fmap. eauto.
Qed.

Lemma popularity_rows_spec pick df sel :
  popularity_rows pick df = Ok sel ->
  columns sel = columns df /\
  forall r, r ∈ rows sel <->
    r ∈ rows df /\
    exists q m, cell r "Popularity" = Num q /\
      pick (omap as_float (series df "Popularity")) = Some m /\ (q == m)%Q.
Proof.
  unfold popularity_rows. destruct (decide _); [|discriminate].
  intros [= <-]; simpl. split; [easy|]. intros r.
  rewrite list_elem_of_In, filter_In, <- list_elem_of_In.
  unfold popularity_is. split.
  - intros [Hr H]. split; [easy|].
    destruct (cell r "Popularity") as [| |q]; try discriminate.
    destruct (pick _) as [m|]; [|discriminate].
    exists q, m. now apply Qeq_bool_iff in H.
  - intros [Hr (q & m & -> & -> & H)]. split; [easy|].
    now apply Qeq_bool_iff.
Qed.

(** X8. The rows shown as most popular are exactly the rows whose
    Popularity equals the largest Popularity of the frame, in their order,
    and no row of the frame is more popular than they are; likewise for
    the least popular.  Both selections are non-empty as soon as one row
    holds a number. *)
Theorem popularity_extremes df :
  "Popularity" ∈ columns df -> numeric_column df "Popularity" ->
  exists top bottom,
    most_popular df = Ok top /\ least_popular df = Ok bottom /\
    rows top `sublist_of` rows df /\ rows bottom `sublist_of` rows df /\
    (forall r r' q q', r ∈ rows top -> r' ∈ rows df ->
       cell r "Popularity" = Num q -> cell r' "Popularity" = Num q' ->
       (q' <= q)%Q) /\
    (forall r r' q q', r ∈ rows bottom -> r' ∈ rows df ->
       cell r "Popularity" = Num q -> cell r' "Popularity" = Num q' ->
       (q <= q')%Q) /\
    (forall r q, r ∈ rows df -> cell r "Popularity" = Num q ->
       rows top <> [] /\ rows bottom <> []).
Proof.
  intros Hcol _.
  destruct (popularity_rows series_max df) as [top|] eqn:Etop;
    [|unfold popularity_rows in Etop; now rewrite decide_True in Etop].
  destruct (popularity_rows series_min df) as [bottom|] eqn:Ebot;
    [|unfold popularity_rows in Ebot; now rewrite decide_True in Ebot].
  exists top, bottom. split; [easy|]. split; [easy|].
  pose proof (popularity_rows_spec _ _ _ Etop) as [_ Ht].
  pose proof (popularity_rows_spec _ _ _ Ebot) as [_ Hb].
  pose proof (series_max_spec (omap as_float (series df "Popularity"))) as Hmax.
  pose proof (series_min_spec (omap as_float (series df "Popularity"))) as Hmin.
  repeat apply conj.
  - unfold popularity_rows in Etop. rewrite decide_True in Etop by easy.
    injection Etop as <-. apply sublist_filter_bool.
  - unfold popularity_rows in Ebot. rewrite decide_True in Ebot by easy.
    injection Ebot as <-. apply sublist_filter_bool.
  - intros r r' q q' (Hr & q0 & m & Eq & Em & Hqm)%Ht Hr' Hq Hq'.
    rewrite Em in Hmax. destruct Hmax as [_ Hle].
    rewrite Hq in Eq. injection Eq as <-. rewrite Hqm.
    apply Hle. now apply elem_of_popularity with (r := r').
  - intros r r' q q' (Hr & q0 & m & Eq & Em & Hqm)%Hb Hr' Hq Hq'.
    rewrite Em in Hmin. destruct Hmin as [_ Hle].
    rewrite Hq in Eq. injection Eq as <-. rewrite Hqm.
    apply Hle. now apply elem_of_popularity with (r := r').
  - intros r q Hr Hq.
    pose proof (elem_of_popularity _ _ _ Hr Hq) as Hin. split.
    + destruct (series_max _) as [m|] eqn:Em;
        [|rewrite Hmax in Hin; now apply elem_of_nil in Hin].
      destruct Hmax as [Hm _].
      apply list_elem_of_omap in Hm as (v & Hv & Hvm).
      apply list_elem_of_fmap in Hv as (r0 & -> & Hr0).
      destruct (cell r0 "Popularity") as [| |q0] eqn:E0; try discriminate.
      injection Hvm as ->.
      assert (r0 ∈ rows top) as Hin0.
      { apply Ht. split; [easy|]. exists m, m. now rewrite E0. }
      intros Hnil. rewrite Hnil in Hin0. now apply elem_of_nil in Hin0.
    + destruct (series_min _) as [m|] eqn:Em;
        [|rewrite Hmin in Hin; now apply elem_of_nil in Hin].
      destruct Hmin as [Hm _].
      apply list_elem_of_omap in Hm as (v & Hv & Hvm).
      apply list_elem_of_fmap in Hv as (r0 & -> & Hr0).
      destruct (cell r0 "Popularity") as [| |q0] eqn:E0; try discriminate.
      injection Hvm as ->.
      assert (r0 ∈ rows bottom) as Hin0.
      { apply Hb. split; [easy|]. exists m, m. now rewrite E0. }
      intros Hnil. rewrite Hnil in Hin0. now apply elem_of_nil in Hin0.
Qed.

(** ** Null and duplicate handling on its own *)

(** X9. Null and duplicate handling keeps rows in the order of the frame
    and never alters one; what stays is complete and pairwise different,
    and every complete row of the frame is still there, in itself or in an
    earlier row equal to it on every column. *)
Theorem row_elimination_spec df :
  columns (row_elimination df) = columns df /\
  rows (row_elimination df) `sublist_of` rows df /\
  (forall r, r ∈ rows (row_elimination df) ->
     row_complete (columns df) r = true) /\
  no_duplicates (row_elimination df) /\
  (forall r, r ∈ rows df -> row_complete (columns df) r = true ->
     exists r', r' ∈ rows (row_elimination df) /\
       row_eqb (columns df) r r' = true).
Proof.
  repeat apply conj.
  - reflexivity.
  - unfold row_elimination, drop_duplicates, dropna; simpl.
    etrans; [apply sublist_keep_first|apply sublist_filter_bool].
  - apply row_elimination_complete.
  - intros i j r1 r2 Hij H1 H2. apply row_eqb_false.
    exact (unique_rows_distinct _ _ i j r1 r2 Hij H1 H2).
  - apply row_elimination_keeps.
Qed.

(** ** Every number falls in a bin *)

Lemma insert_ascending x l :
  ascending l -> ascending (insert_by Qltb x l).
Proof.
  induction l as [|b l IH]; simpl; [easy|]. intros [Hb Hl].
  destruct (Qltb b x) eqn:E.
  - apply Qltb_lt in E. split; [|now apply IH].
    intros y [->|Hy]%elem_of_insert_by; [now apply Qlt_le_weak|now apply Hb].
  - assert (Hxb : (x <= b)%Q).
    { apply Qnot_lt_le. intros H%Qltb_lt. congruence. }
    split; [|easy].
    intros y [->|Hy]%elem_of_cons; [easy|].
    apply Qle_trans with b; [easy|now apply Hb].
Qed.

Lemma sorted_ascending l : ascending (sorted Qltb l).
Proof.
  unfold sorted. induction l as [|x l IH]; simpl; [easy|].
  now apply insert_ascending.
Qed.

Lemma ascending_last l d x :
  ascending l -> x ∈ l -> (x <= nth (length l - 1) l d)%Q.
Proof.
  revert x. induction l as [|a l IH]; [now intros x _ ?%elem_of_nil|].
  intros x [Ha Hl] Hx. destruct l as [|b l]; simpl.
  - apply list_elem_of_singleton in Hx as ->. apply Qle_refl.
  - simpl in IH. rewrite Nat.sub_0_r in IH.
    apply elem_of_cons in Hx as [->|Hx]; [|now apply IH].
    apply Qle_trans with b; [apply Ha; now left|].
    apply IH; [easy|now left].
Qed.

Lemma quantile_sorted_first x0 t :
  exists v, quantile_sorted (x0 :: t) 0 = Some v /\ (v == x0)%Q.
Proof.
  unfold quantile_sorted. eexists; split; [reflexivity|].
  set (n := length (x0 :: t)).
  assert (E : (0 * inject_Z (Z.of_nat (n - 1)) == 0)%Q) by ring.
  assert (F : Qfloor (0 * inject_Z (Z.of_nat (n - 1))) = 0%Z)
    by now rewrite E.
  rewrite F. change (Z.to_nat 0) with 0. change (inject_Z 0) with 0%Q.
  cbn [nth]. rewrite Qred_correct. ring.
Qed.

Lemma quantile_sorted_last x0 t :
  exists v, quantile_sorted (x0 :: t) 1 = Some v /\
    (v == nth (length (x0 :: t) - 1) (x0 :: t) x0)%Q.
Proof.
  unfold quantile_sorted. eexists; split; [reflexivity|].
  set (n := length (x0 :: t)).
  assert (E : (1 * inject_Z (Z.of_nat (n - 1))
               == inject_Z (Z.of_nat (n - 1)))%Q) by ring.
  assert (F : Qfloor (1 * inject_Z (Z.of_nat (n - 1))) = Z.of_nat (n - 1))
    by now rewrite E, Qfloor_Z.
  rewrite F, Nat2Z.id.
  replace (Nat.min (n - 1 + 1) (n - 1)) with (n - 1) by lia.
  rewrite Qred_correct. ring.
Qed.

(** The edges reach from the least to the greatest of the numbers: each
    number lies between two of them. *)
Lemma quantile_edges_enclose df col bins x :
  quantile_edges df col = Some <$> bins ->
  x ∈ omap as_float (series df col) ->
  exists lo hi, lo ∈ bins /\ hi ∈ bins /\ (lo <= x)%Q /\ (x <= hi)%Q.
Proof.
  unfold quantile_edges, quantile. intros Hbins Hx.
  set (valid := omap as_float (series df col)) in *.
  assert (Hxs : x ∈ sorted Qltb valid) by now apply elem_of_sorted.
  pose proof (sorted_ascending valid) as Hasc.
  destruct (sorted Qltb valid) as [|x0 t] eqn:Es;
    [now apply elem_of_nil in Hxs|].
  destruct (quantile_sorted_first x0 t) as (v0 & E0 & Hv0).
  destruct (quantile_sorted_last x0 t) as (v1 & E1 & Hv1).
  assert (Hin : forall v q, q ∈ quantile_points ->
            quantile_sorted (x0 :: t) q = Some v ->
            exists b, b ∈ bins /\ (b == v)%Q).
  { intros v q Hq Hv.
    assert (Some v ∈ map (quantile_sorted (x0 :: t)) quantile_points) as Hm.
    { rewrite <- Hv. apply list_elem_of_In, in_map. now apply list_elem_of_In. }
    destruct (keep_first_covers float_eqb [] _ (Some v)
                ltac:(intros [y|]; simpl; [apply Qeq_bool_refl|easy]) Hm)
      as (e & [[]%elem_of_nil|He] & Hve).
    apply (elem_of_sorted float_ltb) in He.
    fold (unique float_eqb (map (quantile_sorted (x0 :: t)) quantile_points))
      in He.
    rewrite Hbins in He. apply list_elem_of_fmap in He as (b & -> & Hb).
    exists b. split; [easy|]. simpl in Hve. apply Qeq_bool_iff in Hve.
    now symmetry. }
  destruct (Hin v0 0%Q ltac:(left) E0) as (lo & Hlo & Elo).
  destruct (Hin v1 1%Q ltac:(do 4 right; left) E1) as (hi & Hhi & Ehi).
  exists lo, hi. repeat apply conj; try easy.
  - rewrite Elo, Hv0. destruct Hasc as [H0 _].
    apply elem_of_cons in Hxs as [->|Hxs]; [apply Qle_refl|now apply H0].
  - rewrite Ehi, Hv1. now apply ascending_last.
Qed.

Lemma filter_length_lt {A} (p : A -> bool) l x :
  x ∈ l -> p x = false -> length (List.filter p l) < length l.
Proof.
  induction l as [|y l IH]; [now intros ?%elem_of_nil|].
  intros [->|Hx]%elem_of_cons Hp; simpl.
  - rewrite Hp. pose proof (sublist_length _ _ (sublist_filter_bool p l)). lia.
  - specialize (IH Hx Hp). destruct (p y); simpl; lia.
Qed.

Lemma cut_value_in_range bins labels x lo hi :
  strictly_increasing bins -> 2 <= length bins ->
  length labels = length bins - 1 ->
  lo ∈ bins -> hi ∈ bins -> (lo <= x)%Q -> (x <= hi)%Q ->
  exists l, cut_value bins labels (Num x) = Str l /\ l ∈ labels.
Proof.
  intros Hinc Hlen Hlab Hlo Hhi Hlox Hxhi.
  destruct bins as [|b0 rest]; [simpl in Hlen; lia|].
  apply strictly_increasing_cons in Hinc as [Hb0 _].
  assert (Hpick : forall ids, 1 <= ids < length (b0 :: rest) ->
    exists l,
      (if (ids =? 0) || (ids =? length (b0 :: rest)) then NA
       else match labels !! (ids - 1) with
            | Some l => Str l
            | None => NA
            end) = Str l /\ l ∈ labels).
  { intros ids Hids.
    destruct (ids =? 0) eqn:E0; [apply Nat.eqb_eq in E0; lia|].
    destruct (ids =? length (b0 :: rest)) eqn:E1;
      [apply Nat.eqb_eq in E1; lia|]. simpl.
    destruct (lookup_lt_is_Some_2 labels (ids - 1)) as [l Hl]; [lia|].
    rewrite Hl. exists l. split; [easy|]. eapply list_elem_of_lookup_2, Hl. }
  unfold cut_value. destruct (Qeq_bool x b0) eqn:Eb.
  - apply Hpick. lia.
  - apply Hpick. unfold searchsorted_left. split.
    + assert (Hlt : (b0 < x)%Q).
      { apply Qeq_bool_neq in Eb.
        assert (b0 <= lo)%Q as Hle.
        { apply elem_of_cons in Hlo as [->|Hlo]; [apply Qle_refl|].
          now apply Qlt_le_weak, Hb0. }
        destruct (Q_dec b0 x) as [[H|H]|H]; [easy| |].
        - exfalso. apply (Qlt_not_le _ _ H).
          now apply Qle_trans with lo.
        - exfalso. apply Eb. now symmetry. }
      apply Qltb_lt in Hlt. simpl. rewrite Hlt. simpl. lia.
    + apply filter_length_lt with (x := hi); [easy|].
      apply not_true_is_false. intros H%Qltb_lt.
      now apply (Qlt_not_le _ _ H).
Qed.

Lemma categorize_col_binned df col labels df' :
  categorize_col lib df col labels = Ok df' ->
  exists d1, map_col (to_numeric lib) col df = Ok d1 /\
    (df' = d1 \/
     exists bins labels',
       quantile_edges d1 col = Some <$> bins /\
       strictly_increasing bins /\ 2 <= length bins /\
       length labels' = length bins - 1 /\
       (forall l, l ∈ labels' -> l ∈ labels) /\
       df' = assign_col (col +:+ "_Category")
               (fun r => cut_value bins labels' (cell r col)) d1).
Proof.
  unfold categorize_col. intros H. inv_bind H. exists df0. split; [easy|].
  destruct (_ <? 2) eqn:Edeg; [injection H as <-; now left|].
  apply Nat.ltb_ge in Edeg.
  destruct (quantile_edges_bins df0 col Edeg) as (bins & Hbins & Hinc & Hlen).
  rewrite Hbins, all_floats_fmap, length_fmap in H.
  apply bind_Ok in H as (category & Hcut & [= <-]).
  right. exists bins, (take (length bins - 1) labels).
  unfold cut in Hcut. rewrite strictly_increasing_increasing in Hcut by easy.
  rewrite strictly_increasing_unique in Hcut by easy.
  rewrite Nat.ltb_irrefl in Hcut; simpl in Hcut.
  destruct (negb (length (unique String.eqb _) =? _)); [discriminate|].
  destruct (length (take _ labels) =? length bins - 1) eqn:El;
    simpl in Hcut; [|discriminate].
  injection Hcut as <-. apply Nat.eqb_eq in El.
  repeat apply conj; try easy.
  intros l Hl. eapply elem_of_sublist; [exact Hl|apply sublist_take].
Qed.

(** X11. When the script derives Vote_Average_Category, a row is left
    without a category exactly when it is left without a Vote_Average:
    every number lies between the lowest and the highest quantile edge and
    gets one of the labels, so the binning costs no row at the null
    handling that follows. *)
Theorem category_missing_iff df pre :
  prepare lib df = Ok pre ->
  "Vote_Average_Category" ∉ columns df ->
  "Vote_Average_Category" ∈ columns pre ->
  forall r, r ∈ rows pre ->
    (cell r "Vote_Average_Category" = NA <-> cell r "Vote_Average" = NA) /\
    (cell r "Vote_Average_Category" = NA \/
     exists l, cell r "Vote_Average_Category" = Str l /\ l ∈ labels).
Proof.
  intros Hpre Hno Hyes r Hr.
  unfold prepare, date_normalization in Hpre. inv_bind Hpre.
  apply to_datetime_year_Ok in Hdf0.
  apply bind_Ok in Hpre as (d2 & H2 & Hcat).
  apply map_col_columns in Hdf0. apply numeric_coercion_columns in H2.
  assert (Hno2 : "Vote_Average_Category" ∉ columns d2).
  { rewrite H2. intros Hin. apply Hno.
    apply (elem_of_pruned_columns df df0); [easy|by_compute|easy]. }
  apply categorize_col_binned in Hcat as (d1 & H1 & Hcase).
  pose proof (map_col_columns _ _ _ _ H1) as E1.
  destruct Hcase as [->|(bins & labels' & Hbins & Hinc & Hlen & Hlab & Hsub & ->)];
    [now rewrite E1 in Hyes|].
  change ("Vote_Average" +:+ "_Category") with "Vote_Average_Category" in *.
  simpl in Hr. apply list_elem_of_fmap in Hr as (r1 & -> & Hr1).
  rewrite cell_insert_eq, cell_insert_ne by discriminate.
  destruct (map_col_rows _ _ _ _ _ H1 Hr1) as (r2 & _ & Er1).
  assert (Hnum : is_number (cell r1 "Vote_Average")).
  { rewrite Er1, cell_insert_eq. apply to_numeric_number. }
  destruct Hnum as [E|[x E]]; rewrite E; [simpl; tauto|].
  assert (Hx : x ∈ omap as_float (series d1 "Vote_Average")).
  { apply list_elem_of_omap. exists (Num x). split; [|easy].
    apply list_elem_of_fmap. eauto. }
  destruct (quantile_edges_enclose _ _ _ _ Hbins Hx)
    as (lo & hi & Hlo & Hhi & Hlox & Hxhi).
  destruct (cut_value_in_range bins labels' x lo hi) as (l & El & Hl);
    try easy.
  rewrite El. split; [split; discriminate|]. right. eauto.
Qed.

(** ** The categories follow the values *)

Lemma filter_length_mono {A} (p q : A -> bool) l :
  (forall a, p a = true -> q a = true) ->
  length (List.filter p l) <= length (List.filter q l).
Proof.
  intros Hpq. induction l as [|a l IH]; simpl; [lia|].
  destruct (p a) eqn:Ep.
  - rewrite (Hpq a Ep). simpl. lia.
  - destruct (q a); simpl; lia.
Qed.

Lemma cut_value_label bins labels x l :
  cut_value bins labels (Num x) = Str l ->
  exists ids, 1 <= ids /\ labels !! (ids - 1) = Some l /\
    ids = (if match bins with b0 :: _ => Qeq_bool x b0 | [] => false end
           then 1 else searchsorted_left bins x).
Proof.
  unfold cut_value.
  set (ids := if match bins with b0 :: _ => Qeq_bool x b0 | [] => false end
              then 1 else searchsorted_left bins x).
  destruct (ids =? 0) eqn:E0; simpl; [discriminate|].
  destruct (ids =? length bins); simpl; [discriminate|].
  destruct (labels !! (ids - 1)) as [l'|] eqn:El; [|discriminate].
  intros [= <-]. exists ids. apply Nat.eqb_neq in E0.
  repeat split; [lia|easy].
Qed.

Lemma cut_value_monotone bins labels x y lx ly :
  strictly_increasing bins -> (x <= y)%Q ->
  cut_value bins labels (Num x) = Str lx ->
  cut_value bins labels (Num y) = Str ly ->
  exists i j, i <= j /\ labels !! i = Some lx /\ labels !! j = Some ly.
Proof.
  intros Hinc Hxy (ix & Hix & Hlx & Eix)%cut_value_label
    (iy & Hiy & Hly & Eiy)%cut_value_label.
  exists (ix - 1), (iy - 1). split; [|easy].
  enough (ix <= iy) by lia.
  destruct bins as [|b0 rest];
    [unfold searchsorted_left in *; simpl in *; lia|].
  apply strictly_increasing_cons in Hinc as [Hb0 _].
  assert (Hcnt : searchsorted_left (b0 :: rest) x
                 <= searchsorted_left (b0 :: rest) y).
  { apply filter_length_mono. intros b Hb. apply Qltb_lt in Hb.
    apply Qltb_lt. now apply Qlt_le_trans with x. }
  destruct (Qeq_bool x b0) eqn:Ex, (Qeq_bool y b0) eqn:Ey; subst; try lia.
  exfalso. apply Qeq_bool_iff in Ey. apply Qeq_bool_neq in Ex.
  unfold searchsorted_left in Hix.
  destruct (List.filter _ (b0 :: rest)) as [|b l] eqn:Ef; [simpl in Hix; lia|].
  assert (Hb : In b (List.filter (fun b => Qltb b x) (b0 :: rest)))
    by (rewrite Ef; now left).
  apply filter_In in Hb as [Hb%list_elem_of_In Hbx%Qltb_lt].
  assert (b0 <= b)%Q as Hle.
  { apply elem_of_cons in Hb as [->|Hb]; [apply Qle_refl|].
    now apply Qlt_le_weak, Hb0. }
  apply (Qlt_irrefl b0).
  apply Qle_lt_trans with b; [easy|].
  apply Qlt_le_trans with x; [easy|]. now rewrite <- Ey.
Qed.

(** X12. The categories follow the values: of two rows of the binned frame,
    the one with the smaller Vote_Average never gets a label that comes
    later in the list not_popular, below_avg, average, popular. *)
Theorem category_monotone df pre (r1 r2 : gmap string value) x y lx ly :
  prepare lib df = Ok pre ->
  "Vote_Average_Category" ∉ columns df ->
  "Vote_Average_Category" ∈ columns pre ->
  r1 ∈ rows pre -> r2 ∈ rows pre ->
  cell r1 "Vote_Average" = Num x -> cell r2 "Vote_Average" = Num y ->
  (x <= y)%Q ->
  cell r1 "Vote_Average_Category" = Str lx ->
  cell r2 "Vote_Average_Category" = Str ly ->
  exists i j, i <= j /\ labels !! i = Some lx /\ labels !! j = Some ly.
Proof.
  intros Hpre Hno Hyes Hr1 Hr2 Hx Hy Hxy Hlx Hly.
  unfold prepare, date_normalization in Hpre. inv_bind Hpre.
  apply to_datetime_year_Ok in Hdf0.
  apply bind_Ok in Hpre as (d2 & H2 & Hcat).
  apply map_col_columns in Hdf0. apply numeric_coercion_columns in H2.
  assert (Hno2 : "Vote_Average_Category" ∉ columns d2).
  { rewrite H2. intros Hin. apply Hno.
    apply (elem_of_pruned_columns df df0); [easy|by_compute|easy]. }
  unfold categorize_col in Hcat. inv_bind Hcat.
  pose proof (map_col_columns _ _ _ _ Hdf1) as E1.
  destruct (_ <? 2) eqn:Edeg;
    [injection Hcat as <-; now rewrite E1 in Hyes|].
  apply Nat.ltb_ge in Edeg.
  destruct (quantile_edges_bins df1 "Vote_Average" Edeg)
    as (bins & Hbins & Hinc & Hlen).
  rewrite Hbins, all_floats_fmap, length_fmap, cut_labels_ok in Hcat by easy.
  simpl in Hcat. injection Hcat as <-.
  change ("Vote_Average" +:+ "_Category") with "Vote_Average_Category" in *.
  simpl in Hr1, Hr2.
  apply list_elem_of_fmap in Hr1 as (s1 & -> & _), Hr2 as (s2 & -> & _).
  rewrite cell_insert_eq in Hlx, Hly.
  rewrite cell_insert_ne in Hx, Hy by discriminate. rewrite Hx in Hlx.
  rewrite Hy in Hly.
  destruct (cut_value_monotone _ _ _ _ _ _ Hinc Hxy Hlx Hly)
    as (i & j & Hij & Hi & Hj).
  exists i, j. split; [easy|]. split.
  - eapply lookup_take_Some; eauto.
  - eapply lookup_take_Some; eauto.
Qed.

(** ** The rows of the dashboard *)

Lemma load_row_cells (r : gmap string value) :
  cell (load_row lib r) "Release_Date"
  = release_year lib (cell r "Release_Date") /\
  cell (load_row lib r) "Vote_Count" = to_numeric lib (cell r "Vote_Count") /\
  cell (load_row lib r) "Popularity" = to_numeric lib (cell r "Popularity") /\
  forall c, c ∉ ["Release_Date"; "Vote_Count"; "Popularity"] ->
    load_row lib r !! c = r !! c.
Proof.
  unfold load_row. repeat apply conj.
  - now rewrite !cell_insert_ne, cell_insert_eq by discriminate.
  - now rewrite cell_insert_ne, cell_insert_eq, cell_insert_ne
      by discriminate.
  - now rewrite cell_insert_eq, !cell_insert_ne by discriminate.
  - intros c. rewrite !not_elem_of_cons. intros (H1 & H2 & H3 & _).
    now rewrite !lookup_insert_ne by congruence.
Qed.

Lemma loaded_from_exploded (r r' : gmap string value) v :
  r' = load_row lib r \/ r' = <["Genre" := v]> (load_row lib r) ->
  loaded_from lib r r'.
Proof.
  destruct (load_row_cells r) as (Hd & Hc & Hp & Hrest).
  intros [->| ->]; unfold loaded_from.
  - repeat apply conj; try easy.
    intros c [_ Hc']%not_elem_of_cons. now apply Hrest.
  - rewrite !cell_insert_ne by discriminate. repeat apply conj; try easy.
    intros c [Hg Hc']%not_elem_of_cons.
    rewrite lookup_insert_ne by congruence. now apply Hrest.
Qed.

(** X13. The loader of the dashboard neither drops nor makes up a row:
    every row of the input, complete or not and whatever its Genre, is
    behind at least one row of the frame handed over, and every row handed
    over has a row of the input behind it; the two agree on every column
    other than Genre, Release_Date, Vote_Count and Popularity, and these
    three hold the year and the numbers read from the input row. *)
Theorem load_data_keeps_rows df handed :
  load_data lib df = Ok handed ->
  (forall r, r ∈ rows df ->
     exists r', r' ∈ rows handed /\ loaded_from lib r r') /\
  (forall r', r' ∈ rows handed ->
     exists r, r ∈ rows df /\ loaded_from lib r r').
Proof.
  intros (_ & ->)%load_data_rows. unfold genre_explosion; simpl.
  destruct (decide ("Genre" ∈ columns df)) as [Hg|Hg]; simpl; split.
  - intros r Hr.
    pose proof (explode_row_nonempty lib (load_row lib r)) as Hlen.
    destruct (explode_row lib (load_row lib r)) as [|r' rest] eqn:E;
      [simpl in Hlen; lia|].
    assert (Hr' : r' ∈ explode_row lib (load_row lib r))
      by (rewrite E; now left).
    exists r'. split.
    + apply list_elem_of_bind. exists (load_row lib r).
      split; [easy|apply list_elem_of_fmap; eauto].
    + rewrite explode_row_tokens in Hr'.
      apply list_elem_of_fmap in Hr' as (t & -> & _).
      apply loaded_from_exploded with (v := Str t). now right.
  - intros r' (r1 & Hr' & Hr1)%list_elem_of_bind.
    apply list_elem_of_fmap in Hr1 as (r & -> & Hr).
    exists r. split; [easy|].
    rewrite explode_row_tokens in Hr'.
    apply list_elem_of_fmap in Hr' as (t & -> & _).
    apply loaded_from_exploded with (v := Str t). now right.
  - intros r Hr. exists (load_row lib r).
    split; [apply list_elem_of_fmap; eauto|].
    apply loaded_from_exploded with (v := NA). now left.
  - intros r' (r & -> & Hr)%list_elem_of_fmap. exists r. split; [easy|].
    apply loaded_from_exploded with (v := NA). now left.
Qed.

(** ** Where the rows of the cleaned frame come from *)

Lemma rows_from_trans keep d1 d2 d3 :
  rows_from keep d1 d2 -> rows_from keep d2 d3 -> rows_from keep d1 d3.
Proof.
  intros H12 H23 r3 Hr3. destruct (H23 r3 Hr3) as (r2 & Hr2 & E23).
  destruct (H12 r2 Hr2) as (r1 & Hr1 & E12). exists r1. split; [easy|].
  intros c Hc. now rewrite E23, E12.
Qed.

Lemma map_col_rows_from (keep : string -> Prop) f c df df' :
  ~ keep c -> map_col f c df = Ok df' -> rows_from keep df df'.
Proof.
  intros Hc H r' Hr'. destruct (map_col_rows _ _ _ _ _ H Hr') as (r & Hr & ->).
  exists r. split; [easy|]. intros c' Hc'.
  apply lookup_insert_ne. congruence.
Qed.

Lemma assign_col_rows_from (keep : string -> Prop) f c df :
  ~ keep c -> rows_from keep df (assign_col c f df).
Proof.
  intros Hc r' (r & -> & Hr)%list_elem_of_fmap. exists r. split; [easy|].
  intros c' Hc'. apply lookup_insert_ne. congruence.
Qed.

Lemma drop_columns_rows_from (keep : string -> Prop) cs df :
  (forall c, c ∈ cs -> ~ keep c) -> rows_from keep df (drop_columns cs df).
Proof.
  intros Hcs r' (r & -> & Hr)%list_elem_of_fmap. exists r. split; [easy|].
  intros c Hc. apply lookup_foldr_delete_ne. intros Hin.
  now apply (Hcs c Hin).
Qed.

Lemma row_elimination_rows_from keep df :
  rows_from keep df (row_elimination df).
Proof.
  intros r Hr. exists r. split; [|easy].
  unfold row_elimination, drop_duplicates, dropna in Hr; simpl in Hr.
  apply unique_incl, list_elem_of_In, filter_In in Hr as [Hr _].
  now apply list_elem_of_In.
Qed.

Lemma genre_explosion_rows_from (keep : string -> Prop) df :
  ~ keep "Genre" -> rows_from keep df (genre_explosion lib df).
Proof.
  intros Hg r' Hr'. unfold genre_explosion in Hr'.
  destruct (decide _); [|now exists r'].
  simpl in Hr'. apply list_elem_of_bind in Hr' as (r & Hr' & Hr).
  exists r. split; [easy|]. rewrite explode_row_tokens in Hr'.
  apply list_elem_of_fmap in Hr' as (t & -> & _).
  intros c Hc. apply lookup_insert_ne. congruence.
Qed.

Lemma categorize_col_rows_from (keep : string -> Prop) df col labels df' :
  ~ keep col -> ~ keep (col +:+ "_Category") ->
  categorize_col lib df col labels = Ok df' -> rows_from keep df df'.
Proof.
  intros Hcol Hcat (d1 & H1 & Hcase)%categorize_col_binned.
  apply (map_col_rows_from keep) in H1; [|easy].
  destruct Hcase as [->|(bins & labels' & _ & _ & _ & _ & _ & ->)]; [easy|].
  eapply rows_from_trans; [exact H1|]. now apply assign_col_rows_from.
Qed.

Lemma cols_written c : c ∈ cols -> c ∈ written_columns.
Proof.
  unfold cols. rewrite !elem_of_cons, elem_of_nil.
  intros [->|[->|[->|[]]]]; by_compute.
Qed.

(** X14. No row of the cleaned frame is made up: each one agrees with a row
    of the input on every column other than the ones the script assigns to
    or drops, Title among them. *)
Theorem eda_pipeline_rows_from df out :
  eda_pipeline lib df = Ok out ->
  rows_from (fun c => c ∉ written_columns) df out /\
  (forall r', r' ∈ rows out ->
     exists r, r ∈ rows df /\ r' !! "Title" = r !! "Title").
Proof.
  intros H.
  assert (Hfrom : rows_from (fun c => c ∉ written_columns) df out).
  { apply eda_pipeline_Ok in H as (pre & Hpre & ->).
    unfold prepare, date_normalization, numeric_coercion in Hpre.
    inv_bind Hpre. apply to_datetime_year_Ok in Hdf0.
    apply bind_Ok in Hpre as (d4 & Hnum & Hcat).
    apply bind_Ok in Hnum as (d2 & H2 & Hnum).
    apply bind_Ok in Hnum as (d3 & H3 & H4).
    set (keep := fun c : string => c ∉ written_columns).
    assert (Hw : forall c, c ∈ written_columns -> ~ keep c)
      by (intros c Hc Hk; now apply Hk).
    apply (map_col_rows_from keep) in Hdf0, H2, H3, H4;
      try (apply Hw; by_compute).
    apply (categorize_col_rows_from keep) in Hcat;
      try (apply Hw; by_compute).
    pose proof (drop_columns_rows_from keep cols df0) as Hprune.
    eapply rows_from_trans; [exact Hdf0|].
    eapply rows_from_trans;
      [apply Hprune; intros c Hc; now apply Hw, cols_written|].
    eapply rows_from_trans; [exact H2|].
    eapply rows_from_trans; [exact H3|].
    eapply rows_from_trans; [exact H4|].
    eapply rows_from_trans; [exact Hcat|].
    eapply rows_from_trans; [apply row_elimination_rows_from|].
    apply genre_explosion_rows_from. apply Hw. by_compute. }
  split; [exact Hfrom|].
  intros r' (r & Hr & E)%Hfrom. exists r. split; [easy|].
  apply E. by_compute.
Qed.

(** ** A frame without rows *)

Lemma map_col_no_rows f c cs :
  c ∈ cs ->
  map_col f c {| columns := cs; rows := [] |}
  = Ok {| columns := cs; rows := [] |}.
Proof. intros H. unfold map_col; simpl. now rewrite decide_True. Qed.

(** X15. On a frame that has the four indexed columns and no row the
    script does not raise: the binning is skipped, the cleaned frame is the
    pruned header without rows, and the sample view prints its message for
    an empty frame. *)
Theorem eda_pipeline_no_rows df draw :
  rows df = [] -> (forall c, c ∈ indexed_columns -> c ∈ columns df) ->
  eda_pipeline lib df
  = Ok {| columns := columns (column_pruning df); rows := [] |} /\
  sample_view draw {| columns := columns (column_pruning df); rows := [] |}
  = Ok None.
Proof.
  intros Hrows Hcols. split; [|reflexivity].
  destruct df as [cs l]; simpl in Hrows; subst l.
  assert (Hin : forall c, c ∈ indexed_columns ->
            c ∈ columns (column_pruning {| columns := cs; rows := [] |})).
  { intros c Hc. apply (elem_of_pruned_columns _ _ c eq_refl).
    - revert Hc. unfold indexed_columns.
      rewrite !elem_of_cons, elem_of_nil.
      intros [->|[->|[->|[->|[]]]]]; by_compute.
    - now apply Hcols. }
  unfold eda_pipeline, prepare, date_normalization, to_datetime_year.
  rewrite map_col_no_rows by (apply Hcols; by_compute). simpl.
  unfold numeric_coercion, column_pruning, drop_columns in *; simpl in *.
  rewrite map_col_no_rows by (apply Hin; by_compute). simpl.
  rewrite map_col_no_rows by (apply Hin; by_compute). simpl.
  rewrite map_col_no_rows by (apply Hin; by_compute). simpl.
  unfold categorize_col.
  rewrite map_col_no_rows by (apply Hin; by_compute). simpl.
  unfold genre_explosion, row_elimination, drop_duplicates, dropna; simpl.
  now destruct (decide _).
Qed.

(** ** What an output row holds *)

Lemma categorize_col_cells df col labels df' (r' : gmap string value) :
  col <> col +:+ "_Category" ->
  categorize_col lib df col labels = Ok df' -> r' ∈ rows df' ->
  exists r, r ∈ rows df /\
    cell r' col = to_numeric lib (cell r col) /\
    forall c, c <> col -> c <> col +:+ "_Category" -> r' !! c = r !! c.
Proof.
  intros Hne (d1 & H1 & Hcase)%categorize_col_binned Hr'.
  destruct Hcase as [->|(bins & labels' & _ & _ & _ & _ & _ & ->)].
  - destruct (map_col_rows _ _ _ _ _ H1 Hr') as (r & Hr & ->).
    exists r. split; [easy|]. split; [apply cell_insert_eq|].
    intros c Hc _. apply lookup_insert_ne. congruence.
  - simpl in Hr'. apply list_elem_of_fmap in Hr' as (r1 & -> & Hr1).
    destruct (map_col_rows _ _ _ _ _ H1 Hr1) as (r & Hr & ->).
    exists r. split; [easy|]. split.
    + rewrite cell_insert_ne by congruence. apply cell_insert_eq.
    + intros c Hc Hc'. rewrite !lookup_insert_ne by congruence. easy.
Qed.

Lemma cell_lookup (r1 r2 : gmap string value) c :
  r1 !! c = r2 !! c -> cell r1 c = cell r2 c.
Proof. unfold cell. now intros ->. Qed.

Lemma map_col_row_step f c df df' (r' : gmap string value) :
  map_col f c df = Ok df' -> r' ∈ rows df' ->
  exists r, r ∈ rows df /\ cell r' c = f (cell r c) /\
    forall c', c' <> c -> r' !! c' = r !! c'.
Proof.
  intros H Hr'. destruct (map_col_rows _ _ _ _ _ H Hr') as (r & Hr & ->).
  exists r. split; [easy|]. split; [apply cell_insert_eq|].
  intros c' Hc'. apply lookup_insert_ne. congruence.
Qed.

Lemma column_pruning_row_step df (r' : gmap string value) :
  r' ∈ rows (column_pruning df) ->
  exists r, r ∈ rows df /\ forall c, c ∉ cols -> r' !! c = r !! c.
Proof.
  intros (r & -> & Hr)%list_elem_of_fmap. exists r. split; [easy|].
  intros c Hc. now apply lookup_foldr_delete_ne.
Qed.

(** The cells of a row as it stands before null handling. *)
Lemma prepare_row_image df pre (r5 : gmap string value) :
  prepare lib df = Ok pre -> r5 ∈ rows pre ->
  exists r, r ∈ rows df /\
    cell r5 "Release_Date" = release_year lib (cell r "Release_Date") /\
    cell r5 "Vote_Average" = to_numeric lib (cell r "Vote_Average") /\
    cell r5 "Vote_Count" = to_numeric lib (cell r "Vote_Count") /\
    cell r5 "Popularity" = to_numeric lib (cell r "Popularity") /\
    r5 !! "Title" = r !! "Title" /\ r5 !! "Genre" = r !! "Genre".
Proof.
  intros Hpre Hr5.
  unfold prepare, date_normalization, numeric_coercion in Hpre.
  inv_bind Hpre. apply to_datetime_year_Ok in Hdf0.
  apply bind_Ok in Hpre as (d4 & Hnum & Hcat).
  apply bind_Ok in Hnum as (d2 & H2 & Hnum).
  apply bind_Ok in Hnum as (d3 & H3 & H4).
  assert (Hne : "Vote_Average" <> "Vote_Average" +:+ "_Category")
    by (intros E; vm_compute in E; discriminate E).
  destruct (categorize_col_cells _ _ _ _ r5 Hne Hcat Hr5)
    as (r4 & Hr4 & Ecat & Ncat).
  change ("Vote_Average" +:+ "_Category") with "Vote_Average_Category" in Ncat.
  destruct (map_col_row_step _ _ _ _ _ H4 Hr4) as (r3 & Hr3 & Ep & Np).
  destruct (map_col_row_step _ _ _ _ _ H3 Hr3) as (r2 & Hr2 & Ec & Nc).
  destruct (map_col_row_step _ _ _ _ _ H2 Hr2) as (r1 & Hr1 & Ea & Na).
  destruct (column_pruning_row_step _ _ Hr1) as (r0 & Hr0 & Nprune).
  destruct (map_col_row_step _ _ _ _ _ Hdf0 Hr0) as (r & Hr & Ed & Nd).
  exists r. split; [easy|]. repeat apply conj.
  - rewrite (cell_lookup r5 r4 "Release_Date") by (apply Ncat; discriminate).
    rewrite (cell_lookup r4 r3 "Release_Date") by (apply Np; discriminate).
    rewrite (cell_lookup r3 r2 "Release_Date") by (apply Nc; discriminate).
    rewrite (cell_lookup r2 r1 "Release_Date") by (apply Na; discriminate).
    rewrite (cell_lookup r1 r0 "Release_Date") by (apply Nprune; by_compute).
    exact Ed.
  - rewrite Ecat.
    rewrite (cell_lookup r4 r3 "Vote_Average") by (apply Np; discriminate).
    rewrite (cell_lookup r3 r2 "Vote_Average") by (apply Nc; discriminate).
    rewrite Ea, to_numeric_idem.
    rewrite (cell_lookup r1 r0 "Vote_Average") by (apply Nprune; by_compute).
    now rewrite (cell_lookup r0 r "Vote_Average")
      by (apply Nd; discriminate).
  - rewrite (cell_lookup r5 r4 "Vote_Count") by (apply Ncat; discriminate).
    rewrite (cell_lookup r4 r3 "Vote_Count") by (apply Np; discriminate).
    rewrite Ec.
    rewrite (cell_lookup r2 r1 "Vote_Count") by (apply Na; discriminate).
    rewrite (cell_lookup r1 r0 "Vote_Count") by (apply Nprune; by_compute).
    now rewrite (cell_lookup r0 r "Vote_Count") by (apply Nd; discriminate).
  - rewrite (cell_lookup r5 r4 "Popularity") by (apply Ncat; discriminate).
    rewrite Ep.
    rewrite (cell_lookup r3 r2 "Popularity") by (apply Nc; discriminate).
    rewrite (cell_lookup r2 r1 "Popularity") by (apply Na; discriminate).
    rewrite (cell_lookup r1 r0 "Popularity") by (apply Nprune; by_compute).
    now rewrite (cell_lookup r0 r "Popularity") by (apply Nd; discriminate).
  - rewrite (Ncat "Title"), (Np "Title"), (Nc "Title"), (Na "Title"),
      (Nprune "Title"), (Nd "Title"); try discriminate; [easy|by_compute].
  - rewrite (Ncat "Genre"), (Np "Genre"), (Nc "Genre"), (Na "Genre"),
      (Nprune "Genre"), (Nd "Genre"); try discriminate; [easy|by_compute].
Qed.

(** X16. Each row of the cleaned frame is the image of a row of the input:
    it holds the year of that row's Release_Date, that row's Vote_Average,
    Vote_Count and Popularity as numbers, its Title, and, when there is a
    Genre column, one of the pieces of its Genre. *)
Theorem eda_pipeline_row_image df out (r' : gmap string value) :
  eda_pipeline lib df = Ok out -> r' ∈ rows out ->
  exists r, r ∈ rows df /\
    cell r' "Release_Date" = release_year lib (cell r "Release_Date") /\
    cell r' "Vote_Average" = to_numeric lib (cell r "Vote_Average") /\
    cell r' "Vote_Count" = to_numeric lib (cell r "Vote_Count") /\
    cell r' "Popularity" = to_numeric lib (cell r "Popularity") /\
    r' !! "Title" = r !! "Title" /\
    ("Genre" ∈ columns df ->
     exists t, r' !! "Genre" = Some (Str t) /\
       t ∈ str_split ", " (astype_str lib (cell r "Genre"))).
Proof.
  intros (pre & Hpre & ->)%eda_pipeline_Ok Hr'.
  destruct (prepare_genre_stable _ _ _ Hpre) as [Hgcol _].
  assert (Hexp : exists r5, r5 ∈ rows (row_elimination pre) /\
            (forall c, c <> "Genre" -> r' !! c = r5 !! c) /\
            ("Genre" ∈ columns pre ->
             exists t, r' !! "Genre" = Some (Str t) /\
               t ∈ str_split ", " (astype_str lib (cell r5 "Genre")))).
  { unfold genre_explosion in Hr'.
    destruct (decide ("Genre" ∈ columns (row_elimination pre))) as [Hg|Hg].
    - simpl in Hr'. apply list_elem_of_bind in Hr' as (r5 & Hr' & Hr5).
      rewrite explode_row_tokens in Hr'.
      apply list_elem_of_fmap in Hr' as (t & -> & Ht).
      exists r5. split; [easy|]. split.
      + intros c Hc. apply lookup_insert_ne. congruence.
      + intros _. exists t. split; [apply lookup_insert_eq|easy].
    - exists r'. split; [easy|]. split; [easy|].
      intros Hin. now apply Hg in Hin. }
  destruct Hexp as (r5 & Hr5 & Hsame & Hgenre).
  assert (Hr5' : r5 ∈ rows pre).
  { unfold row_elimination, drop_duplicates, dropna in Hr5; simpl in Hr5.
    apply unique_incl, list_elem_of_In, filter_In in Hr5 as [Hr5 _].
    now apply list_elem_of_In. }
  destruct (prepare_row_image _ _ _ Hpre Hr5')
    as (r & Hr & Ed & Ea & Ec & Ep & Et & Eg).
  exists r. split; [easy|]. repeat apply conj.
  - now rewrite (cell_lookup r' r5 "Release_Date")
      by (apply Hsame; discriminate).
  - now rewrite (cell_lookup r' r5 "Vote_Average")
      by (apply Hsame; discriminate).
  - now rewrite (cell_lookup r' r5 "Vote_Count")
      by (apply Hsame; discriminate).
  - now rewrite (cell_lookup r' r5 "Popularity")
      by (apply Hsame; discriminate).
  - now rewrite (Hsame "Title") by discriminate.
  - intros Hg. destruct (Hgenre ltac:(now apply Hgcol)) as (t & Ht & Hsplit).
    exists t. split; [easy|].
    now rewrite (cell_lookup r5 r "Genre" Eg) in Hsplit.
Qed.

End ScriptFacts.

(** ** The pipeline on the sample frames *)

Lemma no_missing_after_cleaning_scenario : no_missing cleaned_scenario.
Proof.
  apply (no_missing_after_cleaning decimal_iso df_scenario cleaned_scenario).
  vm_compute; reflexivity.
Defined.

Lemma relisted_cleaned : eda_pipeline decimal_iso df_relisted = Ok out_relisted.
Proof. vm_compute; reflexivity. Qed.

(** C2, refuted as stated: the two listings of one title each yield an
    "Action" row, and these two output rows agree on every column. *)
Lemma duplicates_after_explosion :
  eda_pipeline decimal_iso df_relisted = Ok out_relisted /\
  ~ no_duplicates out_relisted.
Proof.
  split; [exact relisted_cleaned|].
  intros H.
  pose proof (no_duplicates_row_eqb _ 0 2 _ _ H ltac:(lia) eq_refl eq_refl)
    as Hne.
  vm_compute in Hne. discriminate.
Qed.

Lemma no_duplicates_before_explosion_relisted :
  exists pre, prepare decimal_iso df_relisted = Ok pre /\
    no_duplicates (row_elimination pre) /\
    eda_pipeline decimal_iso df_relisted
      = Ok (genre_explosion decimal_iso (row_elimination pre)).
Proof.
  eexists; split; [vm_compute; reflexivity|].
  apply (no_duplicates_before_explosion decimal_iso df_relisted).
  vm_compute; reflexivity.
Defined.

Lemma genre_explosion_correct_action_comedy :
  exists toks emitted,
    toks = str_split ", " "Action, Comedy" /\
    str_join ", " toks = "Action, Comedy" /\
    (forall t u v, t ∈ toks -> t <> u +:+ ", " +:+ v) /\
    rows (genre_explosion decimal_iso
            {| columns := raw_columns;
               rows := ([] ++ row_action_comedy :: [])%list |})
    = (rows (genre_explosion decimal_iso
               {| columns := raw_columns; rows := [] |})
       ++ emitted
       ++ rows (genre_explosion decimal_iso
                  {| columns := raw_columns; rows := [] |}))%list /\
    length emitted = length toks /\
    (forall i t, toks !! i = Some t ->
       exists r' : gmap string value,
         emitted !! i = Some r' /\ r' !! "Genre" = Some (Str t) /\
         forall c, c <> "Genre" -> r' !! c = row_action_comedy !! c) /\
    ("Action, Comedy" = "Action, Comedy" ->
       emitted = [<["Genre" := Str "Action"]> row_action_comedy;
                  <["Genre" := Str "Comedy"]> row_action_comedy]).
Proof.
  apply (genre_explosion_correct decimal_iso raw_columns [] []
           row_action_comedy "Action, Comedy").
  - by_compute.
  - vm_compute; reflexivity.
Defined.

Lemma scenario_cleaned :
  eda_pipeline decimal_iso df_scenario = Ok cleaned_scenario.
Proof. vm_compute; reflexivity. Qed.

Lemma scenario_loaded : load_data decimal_iso df_scenario = Ok loaded_scenario.
Proof. vm_compute; reflexivity. Qed.

(** C8, refuted as stated: on the scenario frame the dashboard is handed
    the nine columns of the input, the three descriptive ones among them
    and no category, where the script produces seven. *)
Lemma dashboard_frame_differs :
  load_data decimal_iso df_scenario = Ok loaded_scenario /\
  eda_pipeline decimal_iso df_scenario = Ok cleaned_scenario /\
  loaded_scenario <> cleaned_scenario /\
  "Overview" ∈ columns loaded_scenario /\
  "Vote_Average_Category" ∉ columns loaded_scenario.
Proof.
  split; [exact scenario_loaded|]. split; [exact scenario_cleaned|].
  split; [|split; by_compute].
  intros H. apply (f_equal (fun d => length (columns d))) in H.
  vm_compute in H. discriminate.
Qed.

Lemma load_data_partial_cleaning_scenario :
  columns loaded_scenario = columns df_scenario /\
  loaded_scenario
  = genre_explosion decimal_iso
      {| columns := columns df_scenario;
         rows := load_row decimal_iso <$> rows df_scenario |} /\
  (forall r, load_row decimal_iso r !! "Vote_Average" = r !! "Vote_Average") /\
  length (rows df_scenario) <= length (rows loaded_scenario).
Proof.
  apply (load_data_partial_cleaning decimal_iso df_scenario loaded_scenario).
  vm_compute; reflexivity.
Defined.

Lemma degenerate_column_skipped_constant :
  categorize_col decimal_iso df_constant "v" ["a"; "b"; "c"; "d"]
  = Ok df_constant.
Proof.
  apply (degenerate_column_skipped decimal_iso df_constant "v").
  - by_compute.
  - intros r Hr. unfold df_constant in Hr; simpl in Hr.
    rewrite !elem_of_cons, elem_of_nil in Hr.
    destruct Hr as [->|[->|[->|[]]]]; eexists; (split; [reflexivity|]).
    + right; eauto.
    + now left.
    + right; eauto.
  - vm_compute; lia.
Defined.

Lemma coercion_never_raises_malformed :
  (forall d,
     "Vote_Average" ∈ columns d -> "Vote_Count" ∈ columns d ->
     "Popularity" ∈ columns d ->
     exists coerced,
       numeric_coercion decimal_iso d = Ok coerced /\
       columns coerced = columns d /\
       rows coerced = coerce_row decimal_iso <$> rows d) /\
  (forall (r : gmap string value) c,
     (c ∈ ["Vote_Average"; "Vote_Count"; "Popularity"] ->
      cell (coerce_row decimal_iso r) c = to_numeric decimal_iso (cell r c)) /\
     (c ∉ ["Vote_Average"; "Vote_Count"; "Popularity"] ->
      coerce_row decimal_iso r !! c = r !! c)) /\
  match to_datetime_raises decimal_iso (series df_malformed "Release_Date")
  with
  | Some e =>
      date_normalization decimal_iso df_malformed = Raise e /\
      prepare decimal_iso df_malformed = Raise e /\
      eda_pipeline decimal_iso df_malformed = Raise e
  | None =>
      exists dated coerced,
        date_normalization decimal_iso df_malformed = Ok dated /\
        columns dated = columns df_malformed /\
        rows dated
        = (fun r =>
             <["Release_Date" :=
                 release_year decimal_iso (cell r "Release_Date")]> r)
            <$> rows df_malformed /\
        numeric_coercion decimal_iso (column_pruning dated) = Ok coerced
  end /\
  (forall q, to_numeric decimal_iso (Num q) = Num q) /\
  (forall s q, parse_float decimal_iso s = Some q ->
     to_numeric decimal_iso (Str s) = Num q) /\
  (forall s, parse_float decimal_iso s = None ->
     to_numeric decimal_iso (Str s) = NA) /\
  to_numeric decimal_iso NA = NA /\
  (forall s y, parse_year decimal_iso s = Some y ->
     release_year decimal_iso (Str s) = Num (inject_Z y)) /\
  (forall s, parse_year decimal_iso s = None ->
     release_year decimal_iso (Str s) = NA) /\
  (forall q y, year_of_epoch_ns q = Some y ->
     release_year decimal_iso (Num q) = Num (inject_Z y)) /\
  (forall q, year_of_epoch_ns q = None ->
     release_year decimal_iso (Num q) = NA) /\
  release_year decimal_iso NA = NA.
Proof.
  apply (coercion_never_raises decimal_iso df_malformed); by_compute.
Defined.

(** Each of the two timestamps reads as a date on its own; together they
    stop date normalization, and the pipeline with it. *)
Lemma coercion_raises_on_mixed_offsets :
  ("Release_Date" ∈ columns df_mixed_offsets /\
   "Vote_Average" ∈ columns df_mixed_offsets /\
   "Vote_Count" ∈ columns df_mixed_offsets /\
   "Popularity" ∈ columns df_mixed_offsets) /\
  release_year decimal_iso <$> series df_mixed_offsets "Release_Date"
  = [Num 2020; Num 2019] /\
  (exists e,
     date_normalization decimal_iso df_mixed_offsets = Raise e /\
     eda_pipeline decimal_iso df_mixed_offsets = Raise e) /\
  ~ (exists dated, date_normalization decimal_iso df_mixed_offsets = Ok dated).
Proof.
  split; [repeat split; by_compute|].
  split; [vm_compute; reflexivity|].
  split.
  - eexists. split; vm_compute; reflexivity.
  - intros [dated H]. vm_compute in H. discriminate H.
Qed.

Lemma empty_genre_token_survives_trailing :
  exists out r',
    eda_pipeline decimal_iso df_trailing = Ok out /\ r' ∈ rows out /\
    r' !! "Genre" = Some (Str "") /\ isna (cell r' "Genre") = false.
Proof.
  eapply (empty_genre_token_survives decimal_iso df_trailing _ 0 _ _
            "Action, ").
  - vm_compute; reflexivity.
  - by_compute.
  - reflexivity.
  - vm_compute; reflexivity.
  - by_compute.
  - reflexivity.
  - vm_compute; reflexivity.
Defined.

(** C3, refuted as stated: run on its own output for the relisted frame,
    the script drops one of the two identical "Action" rows, reads the years
    2020 and 2019 as nanoseconds after 1970-01-01 and bins the exploded
    rows anew. *)
Lemma second_run_differs :
  eda_pipeline decimal_iso df_relisted = Ok out_relisted /\
  eda_pipeline decimal_iso out_relisted = Ok out_relisted_again /\
  out_relisted_again <> out_relisted /\
  length (rows out_relisted_again) < length (rows out_relisted).
Proof.
  split; [exact relisted_cleaned|]. split; [vm_compute; reflexivity|].
  split; [|vm_compute; lia].
  intros H. apply (f_equal (fun d => length (rows d))) in H.
  vm_compute in H. discriminate.
Qed.

Lemma second_run_clean_relisted :
  no_missing out_relisted_again /\
  length (rows out_relisted_again) <= length (rows out_relisted) /\
  (forall d, column_pruning (column_pruning d) = column_pruning d) /\
  (forall d d', numeric_coercion decimal_iso d = Ok d' ->
     numeric_coercion decimal_iso d' = Ok d') /\
  (forall d, row_elimination (row_elimination d) = row_elimination d) /\
  (forall d, genre_explosion decimal_iso (genre_explosion decimal_iso d)
             = genre_explosion decimal_iso d).
Proof.
  apply (second_run_clean decimal_iso df_relisted out_relisted
           out_relisted_again).
  - vm_compute; reflexivity.
  - vm_compute; reflexivity.
Defined.

Lemma sample_view_small_frame_scenario :
  (sample_view (fun n _ => seq 0 n) cleaned_scenario
   = Raise (ValueError
       "Cannot take a larger sample than population when 'replace=False'")
   <-> 1 <= length (rows cleaned_scenario) <= 4) /\
  (length (rows cleaned_scenario) = 0 ->
   sample_view (fun n _ => seq 0 n) cleaned_scenario = Ok None) /\
  (5 <= length (rows cleaned_scenario) ->
   exists shown,
     sample_view (fun n _ => seq 0 n) cleaned_scenario = Ok (Some shown)).
Proof.
  apply (sample_view_small_frame decimal_iso (fun n _ => seq 0 n) df_scenario
           cleaned_scenario).
  vm_compute; reflexivity.
Defined.

Lemma parse_iso_year_range s y :
  parse_iso_year s = Some y -> (1678 <= y <= 2261)%Z.
Proof.
  unfold parse_iso_year. intros H.
  repeat match type of H with
  | match ?x with _ => _ end = Some _ =>
      destruct x; try discriminate
  end.
  destruct (number_of [a; a0; a1; a2]) as [yy|]; simpl in H; [|easy].
  destruct (number_of [a3; a4]) as [mm|]; simpl in H; [|easy].
  destruct (number_of [a5; a6]) as [dd|]; simpl in H; [|easy].
  destruct (_ && _) eqn:E in H; [|easy]. injection H as <-.
  rewrite !andb_true_iff, !Z.leb_le in E. lia.
Qed.

Lemma parse_date_year_range s y :
  parse_date_year s = Some y -> (1678 <= y <= 2261)%Z.
Proof.
  unfold parse_date_year.
  destruct (parse_iso_year s) as [y0|] eqn:E.
  - intros [= <-]. now apply parse_iso_year_range with (s := s).
  - unfold parse_timestamp. destruct (String.length s =? 25); [|easy].
    destruct (parse_iso_year (substring 0 10 s)) as [y1|] eqn:E1; [|easy].
    simpl. intros H.
    destruct (_ || _); simpl in H; [|easy].
    destruct (parse_clock _); simpl in H; [|easy].
    destruct (parse_offset _); simpl in H; [|easy].
    injection H as <-. now apply parse_iso_year_range in E1.
Qed.

Lemma release_date_view_all_1970_scenario :
  exists years,
    release_date_years decimal_iso loaded_scenario = Ok years /\
    forall v, v ∈ years -> v = Num (inject_Z 1970).
Proof.
  apply (release_date_view_all_1970 decimal_iso df_scenario loaded_scenario).
  - vm_compute; reflexivity.
  - intros s y Hy%parse_date_year_range. unfold ns_per_day; lia.
  - intros r Hr. unfold df_scenario in Hr; simpl in Hr.
    rewrite !elem_of_cons, elem_of_nil in Hr.
    destruct Hr as [->|[->|[]]]; right; eexists; reflexivity.
Defined.

Lemma popularity_extremes_scenario :
  exists top bottom,
    most_popular cleaned_scenario = Ok top /\
    least_popular cleaned_scenario = Ok bottom /\
    rows top `sublist_of` rows cleaned_scenario /\
    rows bottom `sublist_of` rows cleaned_scenario /\
    (forall r r' q q', r ∈ rows top -> r' ∈ rows cleaned_scenario ->
       cell r "Popularity" = Num q -> cell r' "Popularity" = Num q' ->
       (q' <= q)%Q) /\
    (forall r r' q q', r ∈ rows bottom -> r' ∈ rows cleaned_scenario ->
       cell r "Popularity" = Num q -> cell r' "Popularity" = Num q' ->
       (q <= q')%Q) /\
    (forall r q, r ∈ rows cleaned_scenario -> cell r "Popularity" = Num q ->
       rows top <> [] /\ rows bottom <> []).
Proof.
  apply (popularity_extremes cleaned_scenario).
  - by_compute.
  - intros r Hr. unfold cleaned_scenario in Hr; simpl in Hr.
    rewrite !elem_of_cons, elem_of_nil in Hr.
    destruct Hr as [->|[->|[->|[]]]]; eexists;
      (split; [reflexivity|right; eauto]).
Defined.

Lemma eda_pipeline_schema_scenario :
  (columns cleaned_scenario = columns (column_pruning df_scenario) \/
   (("Vote_Average_Category" ∉ columns df_scenario) /\
    columns cleaned_scenario
    = (columns (column_pruning df_scenario)
       ++ ["Vote_Average_Category"])%list)) /\
  (forall c, c ∈ cols -> c ∉ columns cleaned_scenario).
Proof.
  apply (eda_pipeline_schema decimal_iso df_scenario cleaned_scenario).
  vm_compute; reflexivity.
Defined.

Lemma no_duplicates_without_genre_sample :
  exists out,
    eda_pipeline decimal_iso df_no_genre = Ok out /\
    length (rows out) = 2 /\
    no_duplicates out /\
    exists pre, prepare decimal_iso df_no_genre = Ok pre /\
      out = row_elimination pre.
Proof.
  eexists. split; [vm_compute; reflexivity|]. split; [reflexivity|].
  apply (no_duplicates_without_genre decimal_iso df_no_genre).
  - by_compute.
  - vm_compute; reflexivity.
Defined.

Lemma category_missing_iff_scenario :
  exists pre,
    prepare decimal_iso df_scenario = Ok pre /\
    forall r, r ∈ rows pre ->
      (cell r "Vote_Average_Category" = NA <-> cell r "Vote_Average" = NA) /\
      (cell r "Vote_Average_Category" = NA \/
       exists l, cell r "Vote_Average_Category" = Str l /\ l ∈ labels).
Proof.
  eexists. split; [vm_compute; reflexivity|].
  apply (category_missing_iff decimal_iso df_scenario).
  - vm_compute; reflexivity.
  - by_compute.
  - by_compute.
Defined.

Lemma category_monotone_scenario :
  exists i j,
    i <= j /\ labels !! i = Some "not_popular" /\ labels !! j = Some "popular".
Proof.
  eapply (category_monotone decimal_iso df_scenario _ _ _ 6 (15 # 2)
            "not_popular" "popular").
  - vm_compute; reflexivity.
  - by_compute.
  - by_compute.
  - apply (list_elem_of_lookup_2 _ 1). reflexivity.
  - apply (list_elem_of_lookup_2 _ 0). reflexivity.
  - vm_compute; reflexivity.
  - vm_compute; reflexivity.
  - vm_compute; discriminate.
  - vm_compute; reflexivity.
  - vm_compute; reflexivity.
Defined.

Lemma load_data_keeps_rows_missing_genre :
  (forall r, r ∈ rows df_missing_genre ->
     exists r',
       r' ∈ rows (genre_explosion decimal_iso
                    {| columns := raw_columns;
                       rows := load_row decimal_iso
                                 <$> rows df_missing_genre |}) /\
       loaded_from decimal_iso r r') /\
  (forall r',
     r' ∈ rows (genre_explosion decimal_iso
                  {| columns := raw_columns;
                     rows := load_row decimal_iso
                               <$> rows df_missing_genre |}) ->
     exists r, r ∈ rows df_missing_genre /\ loaded_from decimal_iso r r').
Proof.
  apply (load_data_keeps_rows decimal_iso df_missing_genre).
  vm_compute; reflexivity.
Defined.

Lemma eda_pipeline_rows_from_scenario :
  rows_from (fun c => c ∉ written_columns) df_scenario cleaned_scenario /\
  (forall r', r' ∈ rows cleaned_scenario ->
     exists r, r ∈ rows df_scenario /\ r' !! "Title" = r !! "Title").
Proof.
  apply (eda_pipeline_rows_from decimal_iso df_scenario cleaned_scenario).
  vm_compute; reflexivity.
Defined.

Lemma eda_pipeline_no_rows_header :
  eda_pipeline decimal_iso df_header_only
  = Ok {| columns := columns (column_pruning df_header_only); rows := [] |} /\
  sample_view (fun n _ => seq 0 n)
    {| columns := columns (column_pruning df_header_only); rows := [] |}
  = Ok None.
Proof.
  apply (eda_pipeline_no_rows decimal_iso df_header_only
           (fun n _ => seq 0 n)).
  - reflexivity.
  - intros c. unfold indexed_columns.
    rewrite !elem_of_cons, elem_of_nil.
    intros [->|[->|[->|[->|[]]]]]; by_compute.
Defined.

Lemma eda_pipeline_row_image_scenario :
  exists r, r ∈ rows df_scenario /\
    cell (clean_row 2020 "X" (251 # 5) 100 (15 # 2) "Romance" "popular")
      "Release_Date"
    = release_year decimal_iso (cell r "Release_Date") /\
    cell (clean_row 2020 "X" (251 # 5) 100 (15 # 2) "Romance" "popular")
      "Vote_Average"
    = to_numeric decimal_iso (cell r "Vote_Average") /\
    cell (clean_row 2020 "X" (251 # 5) 100 (15 # 2) "Romance" "popular")
      "Vote_Count"
    = to_numeric decimal_iso (cell r "Vote_Count") /\
    cell (clean_row 2020 "X" (251 # 5) 100 (15 # 2) "Romance" "popular")
      "Popularity"
    = to_numeric decimal_iso (cell r "Popularity") /\
    clean_row 2020 "X" (251 # 5) 100 (15 # 2) "Romance" "popular" !! "Title"
    = r !! "Title" /\
    ("Genre" ∈ columns df_scenario ->
     exists t,
       clean_row 2020 "X" (251 # 5) 100 (15 # 2) "Romance" "popular"
         !! "Genre" = Some (Str t) /\
       t ∈ str_split ", " (astype_str decimal_iso (cell r "Genre"))).
Proof.
  apply (eda_pipeline_row_image decimal_iso df_scenario cleaned_scenario).
  - vm_compute; reflexivity.
  - apply (list_elem_of_lookup_2 _ 1). reflexivity.
Defined.

Lemma eda_pipeline_missing_column_no_votes :
  eda_pipeline decimal_iso (drop_columns ["Vote_Count"] df_scenario)
  = Raise
      (match to_datetime_raises decimal_iso
               (series (drop_columns ["Vote_Count"] df_scenario)
                  "Release_Date")
       with
       | Some e =>
           if decide ("Vote_Count" = "Release_Date")
           then KeyError "Vote_Count" else e
       | None => KeyError "Vote_Count"
       end).
Proof.
  apply (eda_pipeline_missing_column decimal_iso
           (drop_columns ["Vote_Count"] df_scenario) "Vote_Count").
  vm_compute; reflexivity.
Defined.
